(** * GoogleMap.tsx: position change detection and delivery synchronisation

    A shallow embedding of the logic of the [GoogleMap] React component
    (src/components/Maps/GoogleMap.tsx): the change detector
    [areLocationDifferent], the outbound handler
    [handleBrowserFetchCurrentLocation], the inbound listener
    [onDeliveryUpdatedEvent], the four status triggers and the two effects that
    request position samples.

    JavaScript numbers are IEEE 754 binary64 values; they are embedded as
    Rocq's primitive floats, whose [PrimFloat.eqb] is the comparison that
    [===] performs on two numbers (a NaN is unequal to itself, the two zeros
    are equal).  An optional chain on [null] or a missing field yields
    [undefined], embedded as [None].

    The handlers are closures of one render; they are embedded as functions
    of the values that render binds, returning the calls they make in program
    order.  A second layer runs these calls on the state of the mounted
    component, with the intervals and position requests the effects create.
    The socket effect and the listener effect (lines 30-56) are embedded on
    their own, over a socket modelled from the specification; of the markup,
    the [disabled] attributes of the controls, the map block and the markers
    of the package are embedded.  Not embedded: [console.log] and the
    styling. *)

From Stdlib Require Import Bool List String ZArith Lia.
From Stdlib Require Import Floats.
Import ListNotations.

Local Open Scope string_scope.
Local Open Scope list_scope.

(** ** JavaScript values used by the component *)

Module JS.

(** A JavaScript [number]. *)
Definition number : Type := float.

(** [x === y] on two numbers. *)
Definition number_eq (x y : number) : bool := PrimFloat.eqb x y.

(** [x === y] where each side is a number or [undefined] ([None]): the
    result of an optional chain such as [location1?.lat]. *)
Definition strict_eq_num (x y : option number) : bool :=
  match x, y with
  | None, None => true
  | Some a, Some b => number_eq a b
  | _, _ => false
  end.

(** [x !== y] on the same values. *)
Definition strict_neq_num (x y : option number) : bool :=
  negb (strict_eq_num x y).

(** [x === y] where each side is a string or [undefined]. *)
Definition strict_eq_str (x y : option string) : bool :=
  match x, y with
  | None, None => true
  | Some a, Some b => String.eqb a b
  | _, _ => false
  end.

Definition strict_neq_str (x y : option string) : bool :=
  negb (strict_eq_str x y).

End JS.

(** ** Data model *)

(** [interface Position { lat: number; lng: number }] *)
Record Position : Type := mkPosition {
  lat : JS.number;
  lng : JS.number
}.

(** [location?.lat] and [location?.lng] for [location : Position | null]. *)
Definition opt_lat (location : option Position) : option JS.number :=
  option_map lat location.

Definition opt_lng (location : option Position) : option JS.number :=
  option_map lng location.

(** [areLocationDifferent], lines 58-62:
    [location1?.lat !== location2?.lat || location1?.lng !== location2?.lng]. *)
Definition areLocationDifferent (location1 location2 : option Position) : bool :=
  JS.strict_neq_num (opt_lat location1) (opt_lat location2)
  || JS.strict_neq_num (opt_lng location1) (opt_lng location2).

(** A coordinate none of whose fields is a NaN. *)
Definition no_nan (p : Position) : bool :=
  negb (PrimFloat.is_nan (lat p)) && negb (PrimFloat.is_nan (lng p)).

(** [enum SocketEvent], lines 17-21, with the wire name of each member. *)
Inductive SocketEvent : Type :=
| LocationChanged
| StatusChanged
| DeliveryUpdated.

Definition SocketEvent_value (e : SocketEvent) : string :=
  match e with
  | LocationChanged => "location_changed"
  | StatusChanged => "status_changed"
  | DeliveryUpdated => "delivery_updated"
  end.

(** Modelled from the spec: the [Delivery] type of [types/delivery], which is
    not among the sources.  The specification gives the snapshot as
    [{ _id: string, location?: {lat,lng}, status: string, ... }]; the
    component reads these three fields only.  A snapshot comes off the socket
    unchecked, so its [_id] can be missing at run time: [None] stands for
    [undefined]. *)
Record Delivery : Type := mkDelivery {
  _id : option string;
  location : option Position;
  status : string
}.

(** The value of [useDelivery()]: the held delivery, if any.  Its
    [updateDelivery] method is [updateDelivery] below. *)
Record DeliveryContext : Type := mkDeliveryContext {
  delivery : option Delivery
}.

(** [deliveryContext.delivery?._id] *)
Definition delivery_id (ctx : DeliveryContext) : option string :=
  match delivery ctx with
  | Some d => _id d
  | None => None
  end.

(** [deliveryContext?.delivery?.location] *)
Definition delivery_location (ctx : DeliveryContext) : option Position :=
  match delivery ctx with
  | Some d => location d
  | None => None
  end.

(** [deliveryContext.delivery?.status] *)
Definition delivery_status (ctx : DeliveryContext) : option string :=
  option_map status (delivery ctx).

(** Modelled from the spec: [updateDelivery] of [contexts/DeliveryContext],
    which is not among the sources.  The specification describes it as the
    operation "the Sync Coordinator invokes to replace the Delivery's local
    copy" ([replaceDelivery(Delivery)]). *)
Definition updateDelivery (value : Delivery) (ctx : DeliveryContext)
  : DeliveryContext :=
  mkDeliveryContext (Some value).

(** The payloads handed to [serverSocket.emit]. *)
Record LocationChangedPayload : Type := mkLocationChanged {
  lc_event : string;
  lc_delivery_id : option string;
  lc_location : Position
}.

Record StatusChangedPayload : Type := mkStatusChanged {
  sc_event : string;
  sc_delivery_id : option string;
  sc_status : string
}.

Inductive Payload : Type :=
| LocationPayload (p : LocationChangedPayload)
| StatusPayload (p : StatusChangedPayload).

(** ** Handlers

    A handler is a closure of one render of the component: it reads the
    [currentPosition] and [deliveryContext] bound in that render, and its
    calls reach the outside world in program order. *)

Record Render : Type := mkRender {
  currentPosition : option Position;
  deliveryContext : DeliveryContext
}.

Inductive Effect : Type :=
| SetCurrentPosition (location : Position)
| Emit (eventName : SocketEvent) (payload : Payload)
| UpdateDelivery (value : Delivery).

(** [onDeliveryUpdatedEvent], lines 40-49. *)
Definition onDeliveryUpdatedEvent (r : Render) (value : Delivery) : list Effect :=
  if JS.strict_eq_str (_id value) (delivery_id (deliveryContext r))
  then [UpdateDelivery value]
  else [].

(** The condition of the second [if] of the outbound handler, lines 71-74:
    [deliveryContext?.delivery?.location &&
     areLocationDifferent(deliveryContext.delivery.location, location)].
    A missing stored location is falsy and ends the conjunction. *)
Definition location_guard (ctx : DeliveryContext) (location : Position) : bool :=
  match delivery_location ctx with
  | Some stored => areLocationDifferent (Some stored) (Some location)
  | None => false
  end.

(** The payload of lines 82-85. *)
Definition locationChangedPayload (ctx : DeliveryContext) (location : Position)
  : Payload :=
  LocationPayload
    (mkLocationChanged (SocketEvent_value LocationChanged) (delivery_id ctx) location).

(** [handleBrowserFetchCurrentLocation], lines 64-87. *)
Definition handleBrowserFetchCurrentLocation (r : Render) (location : Position)
  : list Effect :=
  (if areLocationDifferent (Some location) (currentPosition r)
   then [SetCurrentPosition location]
   else [])
  ++
  (if location_guard (deliveryContext r) location
   then [Emit LocationChanged (locationChangedPayload (deliveryContext r) location)]
   else []).

(** The four status triggers, lines 131-161. *)
Definition onPickedUp (r : Render) : list Effect :=
  [Emit StatusChanged
     (StatusPayload
        (mkStatusChanged (SocketEvent_value StatusChanged)
           (delivery_id (deliveryContext r)) "picked-up"))].

Definition onInTransit (r : Render) : list Effect :=
  [Emit StatusChanged
     (StatusPayload
        (mkStatusChanged (SocketEvent_value StatusChanged)
           (delivery_id (deliveryContext r)) "in-transit"))].

Definition onDelivered (r : Render) : list Effect :=
  [Emit StatusChanged
     (StatusPayload
        (mkStatusChanged (SocketEvent_value StatusChanged)
           (delivery_id (deliveryContext r)) "delivered"))].

Definition onFailed (r : Render) : list Effect :=
  [Emit StatusChanged
     (StatusPayload
        (mkStatusChanged (SocketEvent_value StatusChanged)
           (delivery_id (deliveryContext r)) "failed"))].

(** The four controls of the page and the handler each one calls
    ([onClick], lines 230-257). *)
Inductive Trigger : Type :=
| MarkPickedUp
| MarkInTransit
| MarkDelivered
| MarkFailed.

Definition trigger_handler (t : Trigger) : Render -> list Effect :=
  match t with
  | MarkPickedUp => onPickedUp
  | MarkInTransit => onInTransit
  | MarkDelivered => onDelivered
  | MarkFailed => onFailed
  end.

(** The [location_changed] events among the effects of a handler call. *)
Definition is_location_changed (e : Effect) : bool :=
  match e with
  | Emit LocationChanged _ => true
  | _ => false
  end.

Definition location_changed_events (l : list Effect) : list Effect :=
  filter is_location_changed l.

Definition is_set_position (e : Effect) : bool :=
  match e with
  | SetCurrentPosition _ => true
  | _ => false
  end.

(** The guard of the interval effect, lines 105-108:
    [delivery?.status !== 'delivered' && delivery?.status !== 'failed']. *)
Definition sampling_allowed (ctx : DeliveryContext) : bool :=
  JS.strict_neq_str (delivery_status ctx) (Some "delivered")
  && JS.strict_neq_str (delivery_status ctx) (Some "failed").

(** The held delivery's status is terminal: ['delivered'] or ['failed']. *)
Definition is_terminal (ctx : DeliveryContext) : bool :=
  JS.strict_eq_str (delivery_status ctx) (Some "delivered")
  || JS.strict_eq_str (delivery_status ctx) (Some "failed").

(** ** The running component

    The state the component's code reads and writes: the [useState] cell, the
    delivery context, the calls made on [serverSocket.emit], the
    [fetchCurrentPositionIntervalId] ref, the intervals armed in [window] and
    the geolocation requests in flight.  An interval and a request carry the
    render whose handler their callback calls. *)

Record Timer : Type := mkTimer {
  timer_id : Z;
  timer_period : Z;
  timer_render : Render
}.

Record World : Type := mkWorld {
  w_currentPosition : option Position;
  w_deliveryContext : DeliveryContext;
  w_emitted : list (SocketEvent * Payload);
  fetchCurrentPositionIntervalId : option Z;
  w_cleanup : bool;
  w_timers : list Timer;
  w_nextTimerId : Z;
  w_requests : list Render;
  w_geolocation : bool
}.

Definition set_currentPosition (p : option Position) (w : World) : World :=
  mkWorld p (w_deliveryContext w) (w_emitted w)
    (fetchCurrentPositionIntervalId w) (w_cleanup w) (w_timers w)
    (w_nextTimerId w) (w_requests w) (w_geolocation w).

Definition set_deliveryContext (ctx : DeliveryContext) (w : World) : World :=
  mkWorld (w_currentPosition w) ctx (w_emitted w)
    (fetchCurrentPositionIntervalId w) (w_cleanup w) (w_timers w)
    (w_nextTimerId w) (w_requests w) (w_geolocation w).

Definition set_emitted (l : list (SocketEvent * Payload)) (w : World) : World :=
  mkWorld (w_currentPosition w) (w_deliveryContext w) l
    (fetchCurrentPositionIntervalId w) (w_cleanup w) (w_timers w)
    (w_nextTimerId w) (w_requests w) (w_geolocation w).

Definition set_intervalId (id : option Z) (w : World) : World :=
  mkWorld (w_currentPosition w) (w_deliveryContext w) (w_emitted w)
    id (w_cleanup w) (w_timers w)
    (w_nextTimerId w) (w_requests w) (w_geolocation w).

Definition set_cleanup (b : bool) (w : World) : World :=
  mkWorld (w_currentPosition w) (w_deliveryContext w) (w_emitted w)
    (fetchCurrentPositionIntervalId w) b (w_timers w)
    (w_nextTimerId w) (w_requests w) (w_geolocation w).

Definition set_timers (l : list Timer) (next : Z) (w : World) : World :=
  mkWorld (w_currentPosition w) (w_deliveryContext w) (w_emitted w)
    (fetchCurrentPositionIntervalId w) (w_cleanup w) l
    next (w_requests w) (w_geolocation w).

Definition set_requests (l : list Render) (w : World) : World :=
  mkWorld (w_currentPosition w) (w_deliveryContext w) (w_emitted w)
    (fetchCurrentPositionIntervalId w) (w_cleanup w) (w_timers w)
    (w_nextTimerId w) l (w_geolocation w).

(** The values a render started now binds. *)
Definition render (w : World) : Render :=
  mkRender (w_currentPosition w) (w_deliveryContext w).

(** [window.setInterval(callback, period)]: arms an interval and returns its
    id, a fresh integer. *)
Definition setInterval (period : Z) (r : Render) (w : World) : Z * World :=
  (w_nextTimerId w,
   set_timers (w_timers w ++ [mkTimer (w_nextTimerId w) period r])
     (w_nextTimerId w + 1) w).

(** [clearInterval(id)] *)
Definition clearInterval (id : Z) (w : World) : World :=
  set_timers (filter (fun t => negb (Z.eqb (timer_id t) id)) (w_timers w))
    (w_nextTimerId w) w.

(** [if ('geolocation' in navigator) navigator.geolocation.getCurrentPosition(cb)]
    where [cb] calls the handler of render [r] (lines 91-100 and 110-119). *)
Definition requestCurrentPosition (r : Render) (w : World) : World :=
  if w_geolocation w then set_requests (w_requests w ++ [r]) w else w.

(** The mount effect, lines 90-101. *)
Definition mountEffect (w : World) : World :=
  requestCurrentPosition (render w) w.

(** The period handed to [setInterval], in milliseconds: [20 * 1000]. *)
Definition samplingPeriod : Z := 20 * 1000.

(** The body of the interval effect, lines 105-128; [w_cleanup] records
    whether it returned its cleanup function. *)
Definition intervalEffect (w : World) : World :=
  if sampling_allowed (w_deliveryContext w)
  then
    let (id, w') := setInterval samplingPeriod (render w) w in
    set_cleanup true (set_intervalId (Some id) w')
  else set_cleanup false w.

(** The cleanup function of the interval effect, lines 123-127:
    [if (ref.current) clearInterval(ref.current)]; a ref holding [null] or
    [0] is falsy. *)
Definition intervalCleanup (w : World) : World :=
  match fetchCurrentPositionIntervalId w with
  | Some id => if Z.eqb id 0 then w else clearInterval id w
  | None => w
  end.

(** React runs the cleanup the last run of the effect returned, if any. *)
Definition runCleanup (w : World) : World :=
  if w_cleanup w then set_cleanup false (intervalCleanup w) else w.

(** A render in which [currentPosition] or [deliveryContext] changed: the
    interval effect is cleaned up and run again (dependency list, line 129). *)
Definition rerender (w : World) : World :=
  intervalEffect (runCleanup w).

(** Mounting the component runs the mount effect, then the interval effect. *)
Definition mount (w : World) : World :=
  intervalEffect (mountEffect w).

Definition unmount (w : World) : World :=
  runCleanup w.

(** The world before the component mounts, for a given context and
    navigator. *)
Definition initial (geolocation : bool) (ctx : DeliveryContext) : World :=
  mkWorld None ctx [] None false [] 1 [] geolocation.

(** What each call of a handler does to the world.  [setCurrentPosition]
    stores a new object and [updateDelivery] a new delivery, so both are
    followed by a render. *)
Definition run_effect (w : World) (e : Effect) : World :=
  match e with
  | SetCurrentPosition p => rerender (set_currentPosition (Some p) w)
  | Emit eventName payload => set_emitted (w_emitted w ++ [(eventName, payload)]) w
  | UpdateDelivery value =>
      rerender (set_deliveryContext (updateDelivery value (w_deliveryContext w)) w)
  end.

Definition run_effects (l : list Effect) (w : World) : World :=
  fold_left run_effect l w.

(** The success callback of a position request made in render [r] runs. *)
Definition deliver_sample (r : Render) (location : Position) (w : World) : World :=
  run_effects (handleBrowserFetchCurrentLocation r location) w.

(** A [delivery_updated] event arrives; the listener is registered again
    after every change of [deliveryContext] (lines 39-56), so it is the one
    of the current render. *)
Definition receive (value : Delivery) (w : World) : World :=
  run_effects (onDeliveryUpdatedEvent (render w) value) w.

(** A status control is pressed. *)
Definition press (t : Trigger) (w : World) : World :=
  run_effects (trigger_handler t (render w)) w.

(** Samples handled one after the other, each by the handler of the render
    current when it arrives. *)
Definition process_samples (samples : list Position) (w : World) : World :=
  fold_left (fun w s => deliver_sample (render w) s w) samples w.

Fixpoint remove_nth {A : Type} (n : nat) (l : list A) : list A :=
  match n, l with
  | _, [] => []
  | O, _ :: tl => tl
  | S n', x :: tl => x :: remove_nth n' tl
  end.

(** What can happen to a mounted component. *)
Inductive Event : Type :=
| Tick (id : Z)
| SampleResolved (n : nat) (location : Position)
| SampleFailed (n : nat)
| Received (value : Delivery)
| Pressed (t : Trigger)
| Rerendered.

Definition step (w : World) (ev : Event) : World :=
  match ev with
  | Tick id =>
      match find (fun t => Z.eqb (timer_id t) id) (w_timers w) with
      | Some t => requestCurrentPosition (timer_render t) w
      | None => w
      end
  | SampleResolved n location =>
      match nth_error (w_requests w) n with
      | Some r => deliver_sample r location (set_requests (remove_nth n (w_requests w)) w)
      | None => w
      end
  | SampleFailed n => set_requests (remove_nth n (w_requests w)) w
  | Received value => receive value w
  | Pressed t => press t w
  | Rerendered => rerender w
  end.

Definition run (evs : list Event) (w : World) : World :=
  fold_left step evs w.

(** The number of [location_changed] events sent so far. *)
Definition location_changed_count (w : World) : nat :=
  List.length (filter (fun m => match fst m with LocationChanged => true | _ => false end)
            (w_emitted w)).

(** The state of a component mounted in context [ctx] after the events
    [evs]. *)
Definition session (geolocation : bool) (ctx : DeliveryContext)
           (evs : list Event) : World :=
  run evs (mount (initial geolocation ctx)).

(** ** Invariants of the interval effect *)

(** The last run of the interval effect either armed one interval, whose id
    the ref holds, and left a cleanup, or armed none and left no cleanup. *)
Definition hooks_ok (w : World) : Prop :=
  (0 < w_nextTimerId w)%Z
  /\ ((w_cleanup w = true
       /\ exists t, w_timers w = [t]
                    /\ fetchCurrentPositionIntervalId w = Some (timer_id t)
                    /\ timer_id t <> 0%Z
                    /\ timer_period t = samplingPeriod)
      \/ (w_cleanup w = false /\ w_timers w = [])).

(** An interval is armed exactly when the guard of the effect holds of the
    delivery now held. *)
Definition gated (w : World) : Prop :=
  hooks_ok w /\ w_cleanup w = sampling_allowed (w_deliveryContext w).

(** ** What a session sends and where it comes from *)

(** The [delivery_id] field of a payload. *)
Definition payload_delivery_id (p : Payload) : option string :=
  match p with
  | LocationPayload q => lc_delivery_id q
  | StatusPayload q => sc_delivery_id q
  end.

(** A message as the server expects it: the event name and the [event]
    field of the payload agree, and a status is one of the four the controls
    send. *)
Definition wire_ok (m : SocketEvent * Payload) : Prop :=
  match m with
  | (LocationChanged, LocationPayload q) => lc_event q = "location_changed"
  | (StatusChanged, StatusPayload q) =>
      sc_event q = "status_changed"
      /\ In (sc_status q) ["picked-up"; "in-transit"; "delivered"; "failed"]
  | _ => False
  end.

(** The same of a call a handler makes. *)
Definition effect_wire_ok (e : Effect) : Prop :=
  match e with
  | Emit eventName payload => wire_ok (eventName, payload)
  | _ => True
  end.

(** Every closure and every message of the world carries the delivery
    id [i]. *)
Definition tracks (i : option string) (w : World) : Prop :=
  delivery_id (w_deliveryContext w) = i
  /\ Forall (fun r => delivery_id (deliveryContext r) = i) (w_requests w)
  /\ Forall (fun t => delivery_id (deliveryContext (timer_render t)) = i)
       (w_timers w)
  /\ Forall (fun m => payload_delivery_id (snd m) = i) (w_emitted w).

(** A call a handler of a render with delivery id [i] may make. *)
Definition effect_tracks (i : option string) (e : Effect) : Prop :=
  match e with
  | SetCurrentPosition _ => True
  | Emit _ payload => payload_delivery_id payload = i
  | UpdateDelivery value => _id value = i
  end.

(** The locations of the samples that resolved among the events. *)
Fixpoint sample_locations (evs : list Event) : list Position :=
  match evs with
  | [] => []
  | SampleResolved _ location :: evs' => location :: sample_locations evs'
  | _ :: evs' => sample_locations evs'
  end.

(** The locations carried by the [location_changed] messages sent. *)
Fixpoint emitted_locations (l : list (SocketEvent * Payload)) : list Position :=
  match l with
  | [] => []
  | (_, LocationPayload q) :: l' => lc_location q :: emitted_locations l'
  | _ :: l' => emitted_locations l'
  end.

(** An armed interval closes over the values of the current render. *)
Definition timers_current (w : World) : Prop :=
  hooks_ok w /\ forall t, In t (w_timers w) -> timer_render t = render w.

(** ** Presentation: the controls, the map and its markers *)

(** The [disabled] attribute of each control, lines 232, 239, 246 and 253. *)
Definition trigger_disabled (t : Trigger) (ctx : DeliveryContext) : bool :=
  match t with
  | MarkPickedUp => JS.strict_neq_str (delivery_status ctx) (Some "open")
  | MarkInTransit => JS.strict_neq_str (delivery_status ctx) (Some "picked-up")
  | MarkDelivered => JS.strict_neq_str (delivery_status ctx) (Some "in-transit")
  | MarkFailed => JS.strict_neq_str (delivery_status ctx) (Some "in-transit")
  end.

(** Modelled from the spec: the [Package] type behind [usePackage()]
    ([contexts/DeliveryContext] is not among the sources).  The specification
    has it carry [from_location] and [to_location] coordinates; the component
    reads them through [pack?.from_location?.lat] and the like. *)
Record Package : Type := mkPackage {
  from_location : option Position;
  to_location : option Position
}.

Record PackageContext : Type := mkPackageContext {
  pack : option Package
}.

(** [packageContext.pack?.from_location] and [packageContext.pack?.to_location]. *)
Definition pack_from_location (pc : PackageContext) : option Position :=
  match pack pc with
  | Some k => from_location k
  | None => None
  end.

Definition pack_to_location (pc : PackageContext) : option Position :=
  match pack pc with
  | Some k => to_location k
  | None => None
  end.

(** JavaScript's truthiness of a number: every number but the two zeros and
    NaN. *)
Definition number_truthy (x : JS.number) : bool :=
  negb (PrimFloat.eqb x 0%float) && negb (PrimFloat.is_nan x).

(** The value of [loc?.lat && loc?.lng && (<AdvancedMarker .../>)], lines
    189-204 and 207-222: the first falsy operand, or the marker. *)
Inductive Child : Type :=
| ChildUndefined
| ChildNumber (x : JS.number)
| ChildMarker (position : Position) (glyph : string).

Definition marker_child (loc : option Position) (glyph : string) : Child :=
  match opt_lat loc with
  | None => ChildUndefined
  | Some a =>
      if number_truthy a then
        match opt_lng loc with
        | None => ChildUndefined
        | Some b =>
            if number_truthy b then ChildMarker (mkPosition a b) glyph
            else ChildNumber b
        end
      else ChildNumber a
  end.

(** The block [{currentPosition && (<APIProvider>...)}], lines 170-226: the
    centre of the map, the marker of the current location and the two
    children for the package's locations. *)
Record MapBlock : Type := mkMapBlock {
  map_center : Position;
  current_marker : Position;
  from_child : Child;
  to_child : Child
}.

Definition mapBlock (r : Render) (pc : PackageContext) : option MapBlock :=
  match currentPosition r with
  | Some p =>
      Some (mkMapBlock p p
              (marker_child (pack_from_location pc) "S")
              (marker_child (pack_to_location pc) "D"))
  | None => None
  end.

(** ** The socket and the listener

    Modelled from the spec: [serverSocket] of [server-socket], which is not
    among the sources.  The specification gives it an idempotent [connect],
    a [disconnect] that "unregisters nothing implicitly", and [on]/[off] where
    "multiple handlers per event name may be registered; [off] removes
    exactly the handler reference passed in".  A handler is a function
    object; [listener_ref] stands for its identity. *)





















(** ** The change detector *)

(** IEEE equality is symmetric; proved on the specification floats and
    carried to the primitive ones by [eqb_spec]. *)
Lemma SFcompare_Eq_sym (f1 f2 : spec_float) :
  SFcompare f1 f2 = Some Eq -> SFcompare f2 f1 = Some Eq.
Proof.
  assert (Hcont : forall m1 m2 : positive,
             Pos.compare_cont Eq m1 m2 = Eq -> Pos.compare_cont Eq m2 m1 = Eq).
  { intros m1 m2 H. change (Pos.compare m1 m2 = Eq) in H.
    apply Pos.compare_eq in H. subst m2. apply Pos.compare_refl. }
  destruct f1 as [s1| s1 | |s1 m1 e1], f2 as [s2|s2| |s2 m2 e2]; simpl;
    try discriminate; try reflexivity;
    try (destruct s1; discriminate); try (destruct s2; discriminate).
  - destruct s1, s2; (discriminate || reflexivity).
  - destruct s1, s2; try discriminate;
      destruct (Z.compare_spec e1 e2) as [He|He|He]; try discriminate;
      subst e2; rewrite Z.compare_refl; intros H.
    + destruct (Pos.compare_cont Eq m1 m2) eqn:Hm; try discriminate.
      rewrite (Hcont _ _ Hm). reflexivity.
    + destruct (Pos.compare_cont Eq m1 m2) eqn:Hm; try discriminate.
      rewrite (Hcont _ _ Hm). reflexivity.
Qed.

Lemma SFeqb_sym (f1 f2 : spec_float) : SFeqb f1 f2 = SFeqb f2 f1.
Proof.
  unfold SFeqb.
  destruct (SFcompare f1 f2) as [[| |]|] eqn:H12;
    destruct (SFcompare f2 f1) as [[| |]|] eqn:H21; try reflexivity;
    try (apply SFcompare_Eq_sym in H12; congruence);
    try (apply SFcompare_Eq_sym in H21; congruence).
Qed.

Lemma number_eq_sym (x y : JS.number) : JS.number_eq x y = JS.number_eq y x.
Proof. unfold JS.number_eq. rewrite !eqb_spec. apply SFeqb_sym. Qed.

Lemma strict_neq_num_sym (x y : option JS.number) :
  JS.strict_neq_num x y = JS.strict_neq_num y x.
Proof.
  unfold JS.strict_neq_num. f_equal.
  destruct x, y; simpl; auto using number_eq_sym.
Qed.

Lemma areLocationDifferent_sym (a b : option Position) :
  areLocationDifferent a b = areLocationDifferent b a.
Proof.
  unfold areLocationDifferent.
  now rewrite (strict_neq_num_sym (opt_lat a)), (strict_neq_num_sym (opt_lng a)).
Qed.

Lemma number_eq_refl (x : JS.number) :
  PrimFloat.is_nan x = false -> JS.number_eq x x = true.
Proof.
  unfold PrimFloat.is_nan, JS.number_eq. intros H.
  now apply negb_false_iff in H.
Qed.

Lemma areLocationDifferent_refl (a : Position) :
  no_nan a = true -> areLocationDifferent (Some a) (Some a) = false.
Proof.
  unfold no_nan. intros H. apply andb_true_iff in H as [Hlat Hlng].
  apply negb_true_iff in Hlat, Hlng.
  unfold areLocationDifferent, JS.strict_neq_num. simpl.
  now rewrite (number_eq_refl _ Hlat), (number_eq_refl _ Hlng).
Qed.

Lemma areLocationDifferent_absent_l (b : Position) :
  areLocationDifferent None (Some b) = true.
Proof. reflexivity. Qed.

Lemma areLocationDifferent_absent_r (a : Position) :
  areLocationDifferent (Some a) None = true.
Proof. reflexivity. Qed.

Lemma areLocationDifferent_absent_absent :
  areLocationDifferent None None = false.
Proof. reflexivity. Qed.

Lemma sampling_allowed_terminal (ctx : DeliveryContext) :
  sampling_allowed ctx = negb (is_terminal ctx).
Proof.
  unfold sampling_allowed, is_terminal, JS.strict_neq_str.
  now rewrite negb_orb.
Qed.

(** ** The outbound handler *)

Lemma handler_location_changed (r : Render) (location : Position) :
  location_changed_events (handleBrowserFetchCurrentLocation r location) =
  if location_guard (deliveryContext r) location
  then [Emit LocationChanged (locationChangedPayload (deliveryContext r) location)]
  else [].
Proof.
  unfold handleBrowserFetchCurrentLocation, location_changed_events.
  rewrite filter_app.
  destruct (areLocationDifferent (Some location) (currentPosition r));
    destruct (location_guard (deliveryContext r) location); reflexivity.
Qed.

Lemma handler_set_position (r : Render) (location : Position) :
  filter is_set_position (handleBrowserFetchCurrentLocation r location) =
  if areLocationDifferent (Some location) (currentPosition r)
  then [SetCurrentPosition location]
  else [].
Proof.
  unfold handleBrowserFetchCurrentLocation.
  rewrite filter_app.
  destruct (areLocationDifferent (Some location) (currentPosition r));
    destruct (location_guard (deliveryContext r) location); reflexivity.
Qed.

(** ** Frame properties of the runtime operations *)

Section Frame.

Variable w : World.

Lemma runCleanup_frame :
  w_currentPosition (runCleanup w) = w_currentPosition w
  /\ w_deliveryContext (runCleanup w) = w_deliveryContext w
  /\ w_emitted (runCleanup w) = w_emitted w
  /\ w_requests (runCleanup w) = w_requests w
  /\ w_geolocation (runCleanup w) = w_geolocation w.
Proof.
  unfold runCleanup, intervalCleanup.
  destruct (w_cleanup w); [|now repeat split].
  destruct (fetchCurrentPositionIntervalId w) as [id|]; [|now repeat split].
  destruct (Z.eqb id 0); now repeat split.
Qed.

Lemma intervalEffect_frame :
  w_currentPosition (intervalEffect w) = w_currentPosition w
  /\ w_deliveryContext (intervalEffect w) = w_deliveryContext w
  /\ w_emitted (intervalEffect w) = w_emitted w
  /\ w_requests (intervalEffect w) = w_requests w
  /\ w_geolocation (intervalEffect w) = w_geolocation w.
Proof.
  unfold intervalEffect.
  destruct (sampling_allowed (w_deliveryContext w)); now repeat split.
Qed.

End Frame.

Lemma rerender_frame (w : World) :
  w_currentPosition (rerender w) = w_currentPosition w
  /\ w_deliveryContext (rerender w) = w_deliveryContext w
  /\ w_emitted (rerender w) = w_emitted w
  /\ w_requests (rerender w) = w_requests w
  /\ w_geolocation (rerender w) = w_geolocation w.
Proof.
  unfold rerender.
  destruct (intervalEffect_frame (runCleanup w)) as (H1 & H2 & H3 & H4 & H5).
  destruct (runCleanup_frame w) as (K1 & K2 & K3 & K4 & K5).
  repeat split; congruence.
Qed.

(** What one sample does to the state cell, the context and the socket. *)
Lemma deliver_sample_spec (r : Render) (location : Position) (w : World) :
  w_currentPosition (deliver_sample r location w) =
    (if areLocationDifferent (Some location) (currentPosition r)
     then Some location else w_currentPosition w)
  /\ w_deliveryContext (deliver_sample r location w) = w_deliveryContext w
  /\ w_emitted (deliver_sample r location w) =
       w_emitted w ++
       (if location_guard (deliveryContext r) location
        then [(LocationChanged, locationChangedPayload (deliveryContext r) location)]
        else []).
Proof.
  unfold deliver_sample, handleBrowserFetchCurrentLocation, run_effects.
  destruct (areLocationDifferent (Some location) (currentPosition r));
    destruct (location_guard (deliveryContext r) location); simpl.
  - destruct (rerender_frame (set_currentPosition (Some location) w))
      as (H1 & H2 & H3 & _).
    rewrite H1, H2, H3. now repeat split.
  - destruct (rerender_frame (set_currentPosition (Some location) w))
      as (H1 & H2 & H3 & _).
    rewrite H1, H2, H3. simpl. rewrite app_nil_r. now repeat split.
  - now repeat split.
  - rewrite app_nil_r. now repeat split.
Qed.

(** ** The interval effect keeps its invariant *)

Section IntervalEffect.

Variable w : World.
Hypothesis Hok : hooks_ok w.

Lemma runCleanup_disarms :
  w_timers (runCleanup w) = []
  /\ w_cleanup (runCleanup w) = false
  /\ (0 < w_nextTimerId (runCleanup w))%Z.
Proof.
  destruct Hok as [Hnext [(Hc & t & Ht & Href & Hid & _) | (Hc & Ht)]];
    unfold runCleanup; rewrite Hc.
  - unfold intervalCleanup. rewrite Href.
    apply Z.eqb_neq in Hid. rewrite Hid.
    unfold clearInterval. simpl. rewrite Ht. simpl.
    rewrite Z.eqb_refl. simpl. now repeat split.
  - now repeat split.
Qed.

End IntervalEffect.

Lemma intervalEffect_gated (w : World) :
  w_timers w = [] -> w_cleanup w = false -> (0 < w_nextTimerId w)%Z ->
  gated (intervalEffect w).
Proof.
  intros Ht Hc Hnext. unfold gated, hooks_ok, intervalEffect.
  destruct (sampling_allowed (w_deliveryContext w)) eqn:Hallowed; simpl.
  - rewrite Ht, Hallowed. simpl. split; [split; [lia|]|reflexivity].
    left. split; [reflexivity|].
    eexists. split; [reflexivity|]. simpl. repeat split. lia.
  - rewrite Hallowed. split; [split; [assumption|]|reflexivity].
    right. now split.
Qed.

Lemma rerender_gated (w : World) : hooks_ok w -> gated (rerender w).
Proof.
  intros Hok. destruct (runCleanup_disarms w Hok) as (Ht & Hc & Hnext).
  now apply intervalEffect_gated.
Qed.

Lemma requestCurrentPosition_gated (r : Render) (w : World) :
  gated w -> gated (requestCurrentPosition r w).
Proof.
  unfold requestCurrentPosition. now destruct (w_geolocation w).
Qed.

Lemma run_effect_gated (w : World) (e : Effect) :
  gated w -> gated (run_effect w e).
Proof.
  intros [Hok Hg]. destruct e as [p | ev pl | value]; simpl.
  - now apply rerender_gated.
  - now split.
  - now apply rerender_gated.
Qed.

Lemma run_effects_gated (l : list Effect) (w : World) :
  gated w -> gated (run_effects l w).
Proof.
  unfold run_effects. revert w.
  induction l as [|e l IH]; intros w Hw; simpl; [assumption|].
  apply IH. now apply run_effect_gated.
Qed.

Lemma step_gated (w : World) (ev : Event) : gated w -> gated (step w ev).
Proof.
  intros Hw. destruct ev as [id | n location | n | value | t | ]; simpl.
  - destruct (find _ (w_timers w)); [|assumption].
    now apply requestCurrentPosition_gated.
  - destruct (nth_error (w_requests w) n); [|assumption].
    unfold deliver_sample. now apply run_effects_gated.
  - assumption.
  - unfold receive. now apply run_effects_gated.
  - unfold press. now apply run_effects_gated.
  - apply rerender_gated. apply Hw.
Qed.

Lemma run_gated (evs : list Event) (w : World) : gated w -> gated (run evs w).
Proof.
  unfold run. revert w.
  induction evs as [|ev evs IH]; intros w Hw; simpl; [assumption|].
  apply IH. now apply step_gated.
Qed.

Lemma mount_gated (geolocation : bool) (ctx : DeliveryContext) :
  gated (mount (initial geolocation ctx)).
Proof.
  unfold mount. apply intervalEffect_gated;
    unfold mountEffect, requestCurrentPosition; simpl;
    destruct geolocation; simpl; (reflexivity || lia).
Qed.

(** A state reached after mounting: the armed intervals follow the guard. *)
Lemma gated_timers (w : World) :
  gated w ->
  if sampling_allowed (w_deliveryContext w)
  then exists t, w_timers w = [t] /\ timer_period t = samplingPeriod
  else w_timers w = [].
Proof.
  intros [[_ [(Hc & t & Ht & _ & _ & Hp) | (Hc & Ht)]] Hg];
    rewrite <- Hg, Hc.
  - now exists t.
  - assumption.
Qed.

(** ** Requests and ticks *)

Lemma run_effects_geolocation (l : list Effect) (w : World) :
  w_geolocation (run_effects l w) = w_geolocation w.
Proof.
  unfold run_effects. revert w.
  induction l as [|e l IH]; intros w; simpl; [reflexivity|].
  rewrite IH. destruct e as [p | ev pl | value]; simpl; try reflexivity.
  - now destruct (rerender_frame (set_currentPosition (Some p) w))
      as (_ & _ & _ & _ & H).
  - now destruct (rerender_frame
                    (set_deliveryContext
                       (updateDelivery value (w_deliveryContext w)) w))
      as (_ & _ & _ & _ & H).
Qed.

Lemma step_geolocation (w : World) (ev : Event) :
  w_geolocation (step w ev) = w_geolocation w.
Proof.
  destruct ev as [id | n location | n | value | t | ]; simpl.
  - destruct (find _ (w_timers w)); [|reflexivity].
    unfold requestCurrentPosition.
    destruct (w_geolocation w) eqn:Hgeo; simpl; congruence.
  - destruct (nth_error (w_requests w) n); [|reflexivity].
    unfold deliver_sample. now rewrite run_effects_geolocation.
  - reflexivity.
  - unfold receive. now rewrite run_effects_geolocation.
  - unfold press. now rewrite run_effects_geolocation.
  - now destruct (rerender_frame w) as (_ & _ & _ & _ & H).
Qed.

Lemma run_geolocation (evs : list Event) (w : World) :
  w_geolocation (run evs w) = w_geolocation w.
Proof.
  unfold run. revert w.
  induction evs as [|ev evs IH]; intros w; simpl; [reflexivity|].
  now rewrite IH, step_geolocation.
Qed.

Lemma mount_geolocation (geolocation : bool) (ctx : DeliveryContext) :
  w_geolocation (mount (initial geolocation ctx)) = geolocation.
Proof.
  unfold mount.
  destruct (intervalEffect_frame (mountEffect (initial geolocation ctx)))
    as (_ & _ & _ & _ & H).
  rewrite H. unfold mountEffect, requestCurrentPosition. simpl.
  now destruct geolocation.
Qed.

(** With no interval armed, no tick does anything. *)
Lemma tick_without_timer (w : World) (id : Z) :
  w_timers w = [] -> step w (Tick id) = w.
Proof. intros H. simpl. now rewrite H. Qed.

(** The tick of the one armed interval asks for one sample. *)
Lemma tick_of_armed_timer (w : World) (t : Timer) :
  w_timers w = [t] -> w_geolocation w = true ->
  w_requests (step w (Tick (timer_id t))) = w_requests w ++ [timer_render t].
Proof.
  intros Ht Hgeo. simpl. rewrite Ht. simpl. rewrite Z.eqb_refl.
  unfold requestCurrentPosition. now rewrite Hgeo.
Qed.

(** ** Counting emitted events *)

Lemma deliver_sample_count (r : Render) (location : Position) (w : World) :
  location_changed_count (deliver_sample r location w) =
  location_changed_count w
  + (if location_guard (deliveryContext r) location then 1 else 0).
Proof.
  destruct (deliver_sample_spec r location w) as (_ & _ & He).
  unfold location_changed_count. rewrite He, filter_app, length_app.
  now destruct (location_guard (deliveryContext r) location).
Qed.

Lemma process_samples_spec (samples : list Position) (w : World) :
  w_deliveryContext (process_samples samples w) = w_deliveryContext w
  /\ location_changed_count (process_samples samples w) =
     location_changed_count w
     + List.length (filter (location_guard (w_deliveryContext w)) samples).
Proof.
  unfold process_samples. revert w.
  induction samples as [|s samples IH]; intros w; simpl.
  - split; [reflexivity|lia].
  - destruct (IH (deliver_sample (render w) s w)) as [Hctx Hcount].
    destruct (deliver_sample_spec (render w) s w) as (_ & Hd & _).
    rewrite Hctx, Hcount, Hd, deliver_sample_count. simpl.
    split; [reflexivity|].
    destruct (location_guard (w_deliveryContext w) s); simpl; lia.
Qed.

(** Only an inbound [delivery_updated] changes the held delivery. *)
Lemma step_deliveryContext (w : World) (ev : Event) :
  (forall value, ev <> Received value) ->
  w_deliveryContext (step w ev) = w_deliveryContext w.
Proof.
  intros Hev. destruct ev as [id | n location | n | value | t | ]; simpl.
  - destruct (find _ (w_timers w)); [|reflexivity].
    unfold requestCurrentPosition. now destruct (w_geolocation w).
  - destruct (nth_error (w_requests w) n) as [r|]; [|reflexivity].
    now destruct (deliver_sample_spec r location
                    (set_requests (remove_nth n (w_requests w)) w))
      as (_ & H & _).
  - reflexivity.
  - now contradiction (Hev value).
  - now destruct t.
  - now destruct (rerender_frame w) as (_ & H & _).
Qed.

Lemma session_gated (geolocation : bool) (ctx : DeliveryContext)
      (evs : list Event) :
  gated (session geolocation ctx evs).
Proof. unfold session. apply run_gated, mount_gated. Qed.

Lemma session_terminal_disarmed (geolocation : bool) (ctx : DeliveryContext)
      (evs : list Event) :
  is_terminal (w_deliveryContext (session geolocation ctx evs)) = true ->
  w_timers (session geolocation ctx evs) = [].
Proof.
  intros Hterm.
  pose proof (gated_timers _ (session_gated geolocation ctx evs)) as H.
  rewrite sampling_allowed_terminal, Hterm in H. exact H.
Qed.

Lemma strict_eq_str_spec (x y : option string) :
  JS.strict_eq_str x y = true <-> x = y.
Proof.
  destruct x as [a|], y as [b|]; simpl; split; intros H;
    try discriminate; try reflexivity.
  - apply String.eqb_eq in H. now subst.
  - injection H as ->. apply String.eqb_refl.
Qed.

(** * The claims *)

(** ** Sync Coordinator, outbound path *)

(** C1, counterexample.  A component mounted on a delivery that is already
    ['delivered'] emits [location_changed] when its mount-time sample
    arrives; and the sample requested at mount still emits when it resolves
    after an inbound update has made the held delivery ['delivered']. *)
Lemma C1_terminal_status_still_emits :
  (is_terminal
     (w_deliveryContext
        (session true
           (mkDeliveryContext
              (Some (mkDelivery (Some "D1") (Some (mkPosition 0%float 0%float)) "delivered")))
           [])) = true
   /\ location_changed_count
        (session true
           (mkDeliveryContext
              (Some (mkDelivery (Some "D1") (Some (mkPosition 0%float 0%float)) "delivered")))
           []) = 0
   /\ location_changed_count
        (session true
           (mkDeliveryContext
              (Some (mkDelivery (Some "D1") (Some (mkPosition 0%float 0%float)) "delivered")))
           [SampleResolved 0 (mkPosition 1%float 1%float)]) = 1)
  /\ (is_terminal
        (w_deliveryContext
           (session true
              (mkDeliveryContext
                 (Some (mkDelivery (Some "D1") (Some (mkPosition 0%float 0%float)) "in-transit")))
              [Received (mkDelivery (Some "D1") (Some (mkPosition 0%float 0%float)) "delivered")]))
      = true
      /\ location_changed_count
           (session true
              (mkDeliveryContext
                 (Some (mkDelivery (Some "D1") (Some (mkPosition 0%float 0%float)) "in-transit")))
              [Received (mkDelivery (Some "D1") (Some (mkPosition 0%float 0%float)) "delivered");
               SampleResolved 0 (mkPosition 1%float 1%float)]) = 1).
Proof. vm_compute. repeat split. Qed.

(** C1, amended.  The outbound handler does not read the status: changing
    only the status of the held delivery changes none of its effects, and it
    emits [location_changed] exactly when the stored location is present and
    differs from the sample.  The gate on terminal statuses is on the
    recurring timer: in every state a mounted component reaches while the
    held status is ['delivered'] or ['failed'] no interval is armed, and a
    tick requests nothing. *)
Theorem C1_terminal_gating_is_on_the_timer :
  (forall cp i l st st' sample,
      handleBrowserFetchCurrentLocation
        (mkRender cp (mkDeliveryContext (Some (mkDelivery i l st)))) sample =
      handleBrowserFetchCurrentLocation
        (mkRender cp (mkDeliveryContext (Some (mkDelivery i l st')))) sample)
  /\ (forall r sample,
         location_changed_events (handleBrowserFetchCurrentLocation r sample) =
         if location_guard (deliveryContext r) sample
         then [Emit LocationChanged
                 (locationChangedPayload (deliveryContext r) sample)]
         else [])
  /\ (forall geolocation ctx evs,
         is_terminal (w_deliveryContext (session geolocation ctx evs)) = true ->
         w_timers (session geolocation ctx evs) = []
         /\ forall id, step (session geolocation ctx evs) (Tick id) =
                       session geolocation ctx evs).
Proof.
  split; [|split].
  - reflexivity.
  - apply handler_location_changed.
  - intros geolocation ctx evs Hterm.
    pose proof (session_terminal_disarmed _ _ _ Hterm) as Ht.
    split; [assumption|].
    intros id. now apply tick_without_timer.
Qed.

Lemma C1_terminal_gating_is_on_the_timer_witness :
  w_timers
    (session true
       (mkDeliveryContext
          (Some (mkDelivery (Some "D1") (Some (mkPosition 0%float 0%float)) "in-transit")))
       [Received (mkDelivery (Some "D1") (Some (mkPosition 0%float 0%float)) "failed")]) = [].
Proof.
  apply (proj2 (proj2 C1_terminal_gating_is_on_the_timer) true
           (mkDeliveryContext
              (Some (mkDelivery (Some "D1") (Some (mkPosition 0%float 0%float)) "in-transit")))
           [Received (mkDelivery (Some "D1") (Some (mkPosition 0%float 0%float)) "failed")]).
  reflexivity.
Defined.

(** C2, counterexample.  Stored location [{0,0}], two samples [{1,1}] and no
    inbound update: two [location_changed] events, one per sample; the same
    through the mount-time request and the first tick of the interval. *)
Lemma C2_identical_samples_emit_twice :
  location_changed_count
    (process_samples [mkPosition 1%float 1%float; mkPosition 1%float 1%float]
       (session true
          (mkDeliveryContext
             (Some (mkDelivery (Some "D1") (Some (mkPosition 0%float 0%float)) "open")))
          [])) = 2
  /\ location_changed_count
       (session true
          (mkDeliveryContext
             (Some (mkDelivery (Some "D1") (Some (mkPosition 0%float 0%float)) "open")))
          [SampleResolved 0 (mkPosition 1%float 1%float); Tick 2;
           SampleResolved 0 (mkPosition 1%float 1%float)]) = 2.
Proof. vm_compute. split; reflexivity. Qed.

(** C2, amended.  While no [delivery_updated] event arrives the held delivery
    stays as it is, and every processed sample emits one [location_changed]
    event exactly when the stored location is present and differs from it:
    the events emitted are as many as the samples that differ from the stored
    location, so a sample value seen twice emits twice or not at all.  The
    last part is the law of one call, for any render the handler closes
    over. *)
Theorem C2_one_event_per_differing_sample :
  (forall samples w,
      w_deliveryContext (process_samples samples w) = w_deliveryContext w
      /\ location_changed_count (process_samples samples w) =
         location_changed_count w
         + List.length (filter (location_guard (w_deliveryContext w)) samples))
  /\ (forall s w,
         location_changed_count (process_samples [s; s] w) =
         location_changed_count w
         + (if location_guard (w_deliveryContext w) s then 2 else 0))
  /\ (forall r s w,
         location_changed_count (deliver_sample r s w) =
         location_changed_count w
         + (if location_guard (deliveryContext r) s then 1 else 0)).
Proof.
  split; [|split].
  - apply process_samples_spec.
  - intros s w. destruct (process_samples_spec [s; s] w) as [_ H].
    rewrite H. simpl.
    now destruct (location_guard (w_deliveryContext w) s).
  - apply deliver_sample_count.
Qed.

(** C3, counterexample.  LocalPosition absent, stored location absent, sample
    [{10,20}]: the handler sets LocalPosition and emits nothing. *)
Lemma C3_absent_stored_location_emits_nothing :
  handleBrowserFetchCurrentLocation
    (mkRender None (mkDeliveryContext (Some (mkDelivery (Some "D1") None "open"))))
    (mkPosition 10%float 20%float) = [SetCurrentPosition (mkPosition 10%float 20%float)]
  /\ location_changed_count
       (session true
          (mkDeliveryContext (Some (mkDelivery (Some "D1") None "open")))
          [SampleResolved 0 (mkPosition 10%float 20%float)]) = 0.
Proof. vm_compute. split; reflexivity. Qed.

(** C3, amended.  For every sample arriving when both LocalPosition and the
    stored location are absent, the outbound path sets LocalPosition to the
    sample and emits no event: the emission is guarded by the stored location
    being present. *)
Theorem C3_first_sample_sets_position_only (w : World) (sample : Position) :
  w_currentPosition w = None ->
  delivery_location (w_deliveryContext w) = None ->
  handleBrowserFetchCurrentLocation (render w) sample = [SetCurrentPosition sample]
  /\ w_currentPosition (deliver_sample (render w) sample w) = Some sample
  /\ w_emitted (deliver_sample (render w) sample w) = w_emitted w.
Proof.
  intros Hcp Hloc.
  destruct (deliver_sample_spec (render w) sample w) as (H1 & _ & H3).
  unfold handleBrowserFetchCurrentLocation.
  rewrite H1, H3. unfold location_guard. simpl. rewrite Hcp, Hloc.
  rewrite areLocationDifferent_absent_r. simpl.
  repeat split. apply app_nil_r.
Qed.

Lemma C3_first_sample_sets_position_only_witness :
  handleBrowserFetchCurrentLocation
    (render (initial true (mkDeliveryContext None))) (mkPosition 10%float 20%float) =
  [SetCurrentPosition (mkPosition 10%float 20%float)]
  /\ w_currentPosition
       (deliver_sample
          (render (initial true (mkDeliveryContext None)))
          (mkPosition 10%float 20%float)
          (initial true (mkDeliveryContext None))) =
     Some (mkPosition 10%float 20%float)
  /\ w_emitted
       (deliver_sample
          (render (initial true (mkDeliveryContext None)))
          (mkPosition 10%float 20%float)
          (initial true (mkDeliveryContext None))) =
     w_emitted (initial true (mkDeliveryContext None)).
Proof.
  apply (C3_first_sample_sets_position_only
           (initial true (mkDeliveryContext None)) (mkPosition 10%float 20%float));
    reflexivity.
Defined.

(** C4.  A sample that the change detector finds different from LocalPosition
    and not different from the stored location updates LocalPosition and
    emits nothing; a sample not different from LocalPosition leaves it as it
    is.  In every call, whatever render the handler closes over, the update
    is decided by the comparison with [currentPosition] alone and the
    emission by the comparison with the stored location alone. *)
Theorem C4_two_separate_baselines :
  (forall w sample stored,
      areLocationDifferent (Some sample) (w_currentPosition w) = true ->
      delivery_location (w_deliveryContext w) = Some stored ->
      areLocationDifferent (Some stored) (Some sample) = false ->
      w_currentPosition (deliver_sample (render w) sample w) = Some sample
      /\ w_emitted (deliver_sample (render w) sample w) = w_emitted w)
  /\ (forall w sample,
         areLocationDifferent (Some sample) (w_currentPosition w) = false ->
         w_currentPosition (deliver_sample (render w) sample w) =
         w_currentPosition w)
  /\ (forall r sample w,
         w_currentPosition (deliver_sample r sample w) =
           (if areLocationDifferent (Some sample) (currentPosition r)
            then Some sample else w_currentPosition w)
         /\ w_emitted (deliver_sample r sample w) =
            w_emitted w ++
            (if location_guard (deliveryContext r) sample
             then [(LocationChanged,
                    locationChangedPayload (deliveryContext r) sample)]
             else [])).
Proof.
  split; [|split].
  - intros w sample stored Hcp Hloc Hsame.
    destruct (deliver_sample_spec (render w) sample w) as (H1 & _ & H3).
    rewrite H1, H3. unfold location_guard. simpl.
    rewrite Hcp, Hloc, Hsame. split; [reflexivity|apply app_nil_r].
  - intros w sample Hcp.
    destruct (deliver_sample_spec (render w) sample w) as (H1 & _).
    rewrite H1. simpl. now rewrite Hcp.
  - intros r sample w.
    destruct (deliver_sample_spec r sample w) as (H1 & _ & H3).
    now split.
Qed.

Lemma C4_two_separate_baselines_witness :
  (w_currentPosition
     (deliver_sample
        (render
           (session true
              (mkDeliveryContext
                 (Some (mkDelivery (Some "D1") (Some (mkPosition 1%float 1%float)) "open")))
              []))
        (mkPosition 1%float 1%float)
        (session true
           (mkDeliveryContext
              (Some (mkDelivery (Some "D1") (Some (mkPosition 1%float 1%float)) "open")))
           [])) = Some (mkPosition 1%float 1%float)
   /\ w_emitted
        (deliver_sample
           (render
              (session true
                 (mkDeliveryContext
                    (Some (mkDelivery (Some "D1") (Some (mkPosition 1%float 1%float)) "open")))
                 []))
           (mkPosition 1%float 1%float)
           (session true
              (mkDeliveryContext
                 (Some (mkDelivery (Some "D1") (Some (mkPosition 1%float 1%float)) "open")))
              [])) =
      w_emitted
        (session true
           (mkDeliveryContext
              (Some (mkDelivery (Some "D1") (Some (mkPosition 1%float 1%float)) "open")))
           []))
  /\ w_currentPosition
       (deliver_sample
          (render
             (set_currentPosition (Some (mkPosition 1%float 1%float))
                (initial true (mkDeliveryContext None))))
          (mkPosition 1%float 1%float)
          (set_currentPosition (Some (mkPosition 1%float 1%float))
             (initial true (mkDeliveryContext None)))) =
     w_currentPosition
       (set_currentPosition (Some (mkPosition 1%float 1%float))
          (initial true (mkDeliveryContext None))).
Proof.
  split.
  - apply (proj1 C4_two_separate_baselines
             (session true
                (mkDeliveryContext
                   (Some (mkDelivery (Some "D1") (Some (mkPosition 1%float 1%float)) "open")))
                [])
             (mkPosition 1%float 1%float) (mkPosition 1%float 1%float));
      reflexivity.
  - apply (proj1 (proj2 C4_two_separate_baselines)
             (set_currentPosition (Some (mkPosition 1%float 1%float))
                (initial true (mkDeliveryContext None)))
             (mkPosition 1%float 1%float)).
    reflexivity.
Defined.

(** ** Sync Coordinator, inbound path *)

(** C5.  A snapshot whose [_id] equals the held delivery's id replaces the
    held delivery whole: afterwards the held location and status are the
    snapshot's, whatever they were.  A snapshot whose [_id] differs leaves
    the state as it was. *)
Theorem C5_inbound_overwrite_or_ignore (value : Delivery) (w : World) :
  (_id value = delivery_id (w_deliveryContext w) ->
   delivery (w_deliveryContext (receive value w)) = Some value
   /\ delivery_location (w_deliveryContext (receive value w)) = location value
   /\ delivery_status (w_deliveryContext (receive value w)) = Some (status value))
  /\ (_id value <> delivery_id (w_deliveryContext w) -> receive value w = w).
Proof.
  unfold receive, onDeliveryUpdatedEvent. simpl. split; intros H.
  - apply strict_eq_str_spec in H. rewrite H. simpl.
    destruct (rerender_frame
                (set_deliveryContext
                   (updateDelivery value (w_deliveryContext w)) w))
      as (_ & Hctx & _).
    unfold delivery_location, delivery_status. rewrite Hctx. simpl.
    now repeat split.
  - destruct (JS.strict_eq_str (_id value) (delivery_id (w_deliveryContext w)))
      eqn:Heq; [|reflexivity].
    apply strict_eq_str_spec in Heq. contradiction.
Qed.

Lemma C5_inbound_overwrite_or_ignore_witness :
  (delivery
     (w_deliveryContext
        (receive (mkDelivery (Some "D1") None "picked-up")
           (session true
              (mkDeliveryContext
                 (Some (mkDelivery (Some "D1") (Some (mkPosition 1%float 1%float)) "open")))
              []))) = Some (mkDelivery (Some "D1") None "picked-up")
   /\ delivery_location
        (w_deliveryContext
           (receive (mkDelivery (Some "D1") None "picked-up")
              (session true
                 (mkDeliveryContext
                    (Some (mkDelivery (Some "D1") (Some (mkPosition 1%float 1%float)) "open")))
                 []))) = None
   /\ delivery_status
        (w_deliveryContext
           (receive (mkDelivery (Some "D1") None "picked-up")
              (session true
                 (mkDeliveryContext
                    (Some (mkDelivery (Some "D1") (Some (mkPosition 1%float 1%float)) "open")))
                 []))) = Some "picked-up")
  /\ receive (mkDelivery (Some "D2") None "picked-up")
       (session true
          (mkDeliveryContext
             (Some (mkDelivery (Some "D1") (Some (mkPosition 1%float 1%float)) "open")))
          []) =
     session true
       (mkDeliveryContext
          (Some (mkDelivery (Some "D1") (Some (mkPosition 1%float 1%float)) "open")))
       [].
Proof.
  split.
  - apply (proj1 (C5_inbound_overwrite_or_ignore
                    (mkDelivery (Some "D1") None "picked-up")
                    (session true
                       (mkDeliveryContext
                          (Some (mkDelivery (Some "D1")
                                   (Some (mkPosition 1%float 1%float)) "open")))
                       []))).
    reflexivity.
  - apply (proj2 (C5_inbound_overwrite_or_ignore
                    (mkDelivery (Some "D2") None "picked-up")
                    (session true
                       (mkDeliveryContext
                          (Some (mkDelivery (Some "D1")
                                   (Some (mkPosition 1%float 1%float)) "open")))
                       []))).
    discriminate.
Defined.

(** C10.  The listener calls [updateDelivery] exactly when the snapshot's
    [_id] and the held delivery's id are equal, an absent id on both sides
    included: with no delivery held, a snapshot without [_id] is handed to
    [updateDelivery]. *)
Theorem C10_absent_ids_compare_equal :
  (forall r value,
      onDeliveryUpdatedEvent r value = [UpdateDelivery value]
      <-> _id value = delivery_id (deliveryContext r))
  /\ (forall cp l st,
         onDeliveryUpdatedEvent (mkRender cp (mkDeliveryContext None))
           (mkDelivery None l st) = [UpdateDelivery (mkDelivery None l st)]).
Proof.
  split.
  - intros r value. unfold onDeliveryUpdatedEvent.
    rewrite <- strict_eq_str_spec.
    destruct (JS.strict_eq_str (_id value) (delivery_id (deliveryContext r)));
      split; intros H; (reflexivity || discriminate).
  - reflexivity.
Qed.

(** ** Status Controller *)

(** C7.  Each trigger emits exactly one [status_changed] event carrying the
    held delivery's id and the trigger's own target status; what it emits
    does not depend on the status or location held; pressing a control adds
    that one event to the socket and changes nothing else, the held delivery
    included; and no event other than an inbound [delivery_updated] changes
    the held delivery. *)
Theorem C7_status_triggers_emit_intent_only :
  (forall r,
      onPickedUp r =
        [Emit StatusChanged
           (StatusPayload
              (mkStatusChanged "status_changed" (delivery_id (deliveryContext r))
                 "picked-up"))]
      /\ onInTransit r =
           [Emit StatusChanged
              (StatusPayload
                 (mkStatusChanged "status_changed" (delivery_id (deliveryContext r))
                    "in-transit"))]
      /\ onDelivered r =
           [Emit StatusChanged
              (StatusPayload
                 (mkStatusChanged "status_changed" (delivery_id (deliveryContext r))
                    "delivered"))]
      /\ onFailed r =
           [Emit StatusChanged
              (StatusPayload
                 (mkStatusChanged "status_changed" (delivery_id (deliveryContext r))
                    "failed"))])
  /\ (forall t cp cp' i l l' st st',
         trigger_handler t (mkRender cp (mkDeliveryContext (Some (mkDelivery i l st)))) =
         trigger_handler t (mkRender cp' (mkDeliveryContext (Some (mkDelivery i l' st')))))
  /\ (forall t w,
         w_deliveryContext (press t w) = w_deliveryContext w
         /\ exists payload,
             trigger_handler t (render w) = [Emit StatusChanged payload]
             /\ press t w = set_emitted (w_emitted w ++ [(StatusChanged, payload)]) w)
  /\ (forall w ev,
         (forall value, ev <> Received value) ->
         w_deliveryContext (step w ev) = w_deliveryContext w).
Proof.
  split; [|split; [|split]].
  - intros r. now repeat split.
  - intros t cp cp' i l l' st st'. now destruct t.
  - intros t w. split.
    + now destruct t.
    + destruct t; eexists; split; reflexivity.
  - apply step_deliveryContext.
Qed.

Lemma C7_status_triggers_emit_intent_only_witness :
  w_deliveryContext
    (step
       (session true
          (mkDeliveryContext
             (Some (mkDelivery (Some "D1") (Some (mkPosition 0%float 0%float)) "open")))
          [])
       (Pressed MarkPickedUp)) =
  w_deliveryContext
    (session true
       (mkDeliveryContext
          (Some (mkDelivery (Some "D1") (Some (mkPosition 0%float 0%float)) "open")))
       []).
Proof.
  apply (proj2 (proj2 (proj2 C7_status_triggers_emit_intent_only))).
  intros value. discriminate.
Defined.

(** ** Change Detector *)

(** C6, counterexample.  A coordinate whose latitude is a NaN differs from
    itself: [NaN !== NaN] holds. *)
Lemma C6_nan_coordinate_differs_from_itself :
  areLocationDifferent (Some (mkPosition nan 0%float))
    (Some (mkPosition nan 0%float)) = true.
Proof. reflexivity. Qed.

(** C6, amended.  [areLocationDifferent] is symmetric on all pairs of
    present or absent coordinates; it is [false] on a present coordinate
    compared with itself when neither field of the coordinate is a NaN; and
    it is [true] on an absent coordinate compared with any present one. *)
Theorem C6_change_detector_laws :
  (forall a b, areLocationDifferent a b = areLocationDifferent b a)
  /\ (forall a, no_nan a = true -> areLocationDifferent (Some a) (Some a) = false)
  /\ (forall b, areLocationDifferent None (Some b) = true).
Proof.
  split; [|split].
  - apply areLocationDifferent_sym.
  - apply areLocationDifferent_refl.
  - apply areLocationDifferent_absent_l.
Qed.

Lemma C6_change_detector_laws_witness :
  areLocationDifferent (Some (mkPosition 10%float 20%float))
    (Some (mkPosition 10%float 20%float)) = false.
Proof.
  apply (proj1 (proj2 C6_change_detector_laws) (mkPosition 10%float 20%float)).
  reflexivity.
Defined.

(** C9.  Two absent coordinates do not differ; and in the outbound handler a
    comparison that answers [false] triggers nothing: no [setCurrentPosition]
    for the comparison with LocalPosition, no [location_changed] event for
    the comparison with the stored location. *)
Theorem C9_absent_coordinates_do_not_differ :
  areLocationDifferent None None = false
  /\ (forall r sample,
         areLocationDifferent (Some sample) (currentPosition r) = false ->
         filter is_set_position (handleBrowserFetchCurrentLocation r sample) = [])
  /\ (forall r sample stored,
         delivery_location (deliveryContext r) = Some stored ->
         areLocationDifferent (Some stored) (Some sample) = false ->
         location_changed_events (handleBrowserFetchCurrentLocation r sample) = []).
Proof.
  split; [|split].
  - apply areLocationDifferent_absent_absent.
  - intros r sample H. now rewrite handler_set_position, H.
  - intros r sample stored Hloc H.
    rewrite handler_location_changed. unfold location_guard.
    now rewrite Hloc, H.
Qed.

Lemma C9_absent_coordinates_do_not_differ_witness :
  filter is_set_position
    (handleBrowserFetchCurrentLocation
       (mkRender (Some (mkPosition 1%float 1%float))
          (mkDeliveryContext
             (Some (mkDelivery (Some "D1") (Some (mkPosition 1%float 1%float)) "open"))))
       (mkPosition 1%float 1%float)) = []
  /\ location_changed_events
       (handleBrowserFetchCurrentLocation
          (mkRender (Some (mkPosition 1%float 1%float))
             (mkDeliveryContext
                (Some (mkDelivery (Some "D1") (Some (mkPosition 1%float 1%float)) "open"))))
          (mkPosition 1%float 1%float)) = [].
Proof.
  split.
  - apply (proj1 (proj2 C9_absent_coordinates_do_not_differ)). reflexivity.
  - apply (proj2 (proj2 C9_absent_coordinates_do_not_differ)
             _ _ (mkPosition 1%float 1%float)); reflexivity.
Defined.

(** ** Position Sampler *)

(** C8.  With a location provider present, mounting requests one sample, for
    the handler of the first render.  In every state the mounted component
    reaches: while the held status is neither ['delivered'] nor ['failed']
    exactly one interval is armed, its period is 20000 ms and its tick
    requests one further sample; while the status is ['delivered'] or
    ['failed'] no interval is armed and a tick requests nothing; and
    unmounting leaves no interval armed. *)
Theorem C8_position_sampler (ctx : DeliveryContext) (evs : list Event) :
  w_requests (session true ctx []) = [mkRender None ctx]
  /\ (is_terminal (w_deliveryContext (session true ctx evs)) = false ->
      exists t,
        w_timers (session true ctx evs) = [t]
        /\ timer_period t = 20000%Z
        /\ w_requests (step (session true ctx evs) (Tick (timer_id t))) =
           w_requests (session true ctx evs) ++ [timer_render t])
  /\ (is_terminal (w_deliveryContext (session true ctx evs)) = true ->
      w_timers (session true ctx evs) = []
      /\ forall id, step (session true ctx evs) (Tick id) = session true ctx evs)
  /\ w_timers (unmount (session true ctx evs)) = [].
Proof.
  pose proof (session_gated true ctx evs) as Hg.
  split; [|split; [|split]].
  - unfold session, mount. simpl.
    now destruct (intervalEffect_frame (mountEffect (initial true ctx)))
      as (_ & _ & _ & H & _).
  - intros Hterm. pose proof (gated_timers _ Hg) as H.
    rewrite sampling_allowed_terminal, Hterm in H. simpl in H.
    destruct H as (t & Ht & Hp). exists t.
    split; [assumption|]. split; [assumption|].
    apply tick_of_armed_timer; [assumption|].
    unfold session. now rewrite run_geolocation, mount_geolocation.
  - intros Hterm. pose proof (session_terminal_disarmed _ _ _ Hterm) as Ht.
    split; [assumption|]. intros id. now apply tick_without_timer.
  - unfold unmount. apply runCleanup_disarms, Hg.
Qed.

Lemma C8_position_sampler_witness :
  (exists t,
      w_timers
        (session true
           (mkDeliveryContext
              (Some (mkDelivery (Some "D1") (Some (mkPosition 0%float 0%float)) "open")))
           [SampleResolved 0 (mkPosition 1%float 1%float)]) = [t]
      /\ timer_period t = 20000%Z
      /\ w_requests
           (step
              (session true
                 (mkDeliveryContext
                    (Some (mkDelivery (Some "D1") (Some (mkPosition 0%float 0%float)) "open")))
                 [SampleResolved 0 (mkPosition 1%float 1%float)])
              (Tick (timer_id t))) =
         w_requests
           (session true
              (mkDeliveryContext
                 (Some (mkDelivery (Some "D1") (Some (mkPosition 0%float 0%float)) "open")))
              [SampleResolved 0 (mkPosition 1%float 1%float)])
         ++ [timer_render t])
  /\ w_timers
       (session true
          (mkDeliveryContext
             (Some (mkDelivery (Some "D1") (Some (mkPosition 0%float 0%float)) "open")))
          [Received (mkDelivery (Some "D1") (Some (mkPosition 0%float 0%float)) "delivered")])
     = [].
Proof.
  split.
  - apply (proj1 (proj2 (C8_position_sampler
                           (mkDeliveryContext
                              (Some (mkDelivery (Some "D1")
                                       (Some (mkPosition 0%float 0%float)) "open")))
                           [SampleResolved 0 (mkPosition 1%float 1%float)]))).
    reflexivity.
  - apply (proj1 (proj2 (proj2 (C8_position_sampler
                           (mkDeliveryContext
                              (Some (mkDelivery (Some "D1")
                                       (Some (mkPosition 0%float 0%float)) "open")))
                           [Received (mkDelivery (Some "D1")
                                        (Some (mkPosition 0%float 0%float)) "delivered")])))).
    reflexivity.
Defined.

(** * Further properties of the component *)

(** ** The change detector is a partial equivalence *)

Lemma SFcompare_Eq_trans (f1 f2 f3 : spec_float) :
  SFcompare f1 f2 = Some Eq -> SFcompare f2 f3 = Some Eq ->
  SFcompare f1 f3 = Some Eq.
Proof.
  assert (Hcont : forall m1 m2 : positive,
             Pos.compare_cont Eq m1 m2 = Eq -> m1 = m2).
  { intros m1 m2 H. change (Pos.compare m1 m2 = Eq) in H.
    now apply Pos.compare_eq in H. }
  assert (Hfin : forall s1 m1 e1 s2 m2 e2,
             SFcompare (S754_finite s1 m1 e1) (S754_finite s2 m2 e2) = Some Eq ->
             s1 = s2 /\ m1 = m2 /\ e1 = e2).
  { intros s1 m1 e1 s2 m2 e2. simpl.
    destruct s1, s2; try discriminate;
      destruct (Z.compare_spec e1 e2) as [He|He|He]; try discriminate;
      destruct (Pos.compare_cont Eq m1 m2) eqn:Hm; try discriminate;
      intros _; apply Hcont in Hm; now subst. }
  intros H12 H23.
  destruct f1 as [s1|s1| |s1 m1 e1], f2 as [s2|s2| |s2 m2 e2];
    try (simpl in H12; discriminate);
    try (simpl in H12; destruct s1; discriminate);
    try (simpl in H12; destruct s2; discriminate).
  - destruct f3 as [s3|s3| |s3 m3 e3]; simpl in *; try discriminate;
      try reflexivity; try (destruct s3; discriminate).
  - destruct f3 as [s3|s3| |s3 m3 e3]; simpl in *; try discriminate;
      try (destruct s2; discriminate); try (destruct s3; discriminate).
    destruct s1, s2, s3; (discriminate || reflexivity).
  - apply Hfin in H12 as (-> & -> & ->). exact H23.
Qed.

Lemma number_eq_trans (x y z : JS.number) :
  JS.number_eq x y = true -> JS.number_eq y z = true -> JS.number_eq x z = true.
Proof.
  unfold JS.number_eq. rewrite !eqb_spec. unfold SFeqb.
  destruct (SFcompare (Prim2SF x) (Prim2SF y)) as [[| |]|] eqn:H12;
    try discriminate.
  destruct (SFcompare (Prim2SF y) (Prim2SF z)) as [[| |]|] eqn:H23;
    try discriminate.
  now rewrite (SFcompare_Eq_trans _ _ _ H12 H23).
Qed.

Lemma strict_eq_num_trans (x y z : option JS.number) :
  JS.strict_eq_num x y = true -> JS.strict_eq_num y z = true ->
  JS.strict_eq_num x z = true.
Proof.
  destruct x, y, z; simpl; try discriminate; try reflexivity.
  apply number_eq_trans.
Qed.

Lemma areLocationDifferent_false (a b : option Position) :
  areLocationDifferent a b = false <->
  JS.strict_eq_num (opt_lat a) (opt_lat b) = true
  /\ JS.strict_eq_num (opt_lng a) (opt_lng b) = true.
Proof.
  unfold areLocationDifferent, JS.strict_neq_num.
  rewrite orb_false_iff, !negb_false_iff. reflexivity.
Qed.

(** X1.  "Not different" is transitive: if the detector finds [a] and [b]
    not different and [b] and [c] not different, it finds [a] and [c] not
    different, absent coordinates and NaN fields included. *)
Theorem X1_not_different_is_transitive (a b c : option Position) :
  areLocationDifferent a b = false ->
  areLocationDifferent b c = false ->
  areLocationDifferent a c = false.
Proof.
  rewrite !areLocationDifferent_false.
  intros [Hlat1 Hlng1] [Hlat2 Hlng2].
  split; eapply strict_eq_num_trans; eassumption.
Qed.

Lemma X1_not_different_is_transitive_witness :
  areLocationDifferent (Some (mkPosition 0%float 5%float))
    (Some (mkPosition 0%float 5%float)) = false.
Proof.
  apply (X1_not_different_is_transitive
           (Some (mkPosition 0%float 5%float))
           (Some (mkPosition (-0)%float 5%float))
           (Some (mkPosition 0%float 5%float))); reflexivity.
Defined.

(** ** Samples, the inbound echo and the interval *)

Lemma receive_match (value : Delivery) (w : World) :
  _id value = delivery_id (w_deliveryContext w) ->
  w_deliveryContext (receive value w) = mkDeliveryContext (Some value)
  /\ w_currentPosition (receive value w) = w_currentPosition w
  /\ w_emitted (receive value w) = w_emitted w
  /\ w_requests (receive value w) = w_requests w.
Proof.
  intros H. apply strict_eq_str_spec in H.
  unfold receive, onDeliveryUpdatedEvent. simpl. rewrite H. simpl.
  destruct (rerender_frame
              (set_deliveryContext
                 (updateDelivery value (w_deliveryContext w)) w))
    as (H1 & H2 & H3 & H4 & _).
  now rewrite H1, H2, H3, H4.
Qed.

Lemma receive_mismatch (value : Delivery) (w : World) :
  _id value <> delivery_id (w_deliveryContext w) -> receive value w = w.
Proof.
  intros H. unfold receive, onDeliveryUpdatedEvent. simpl.
  destruct (JS.strict_eq_str (_id value) (delivery_id (w_deliveryContext w)))
    eqn:Heq; [|reflexivity].
  apply strict_eq_str_spec in Heq. contradiction.
Qed.

(** X2.  Once a snapshot for the held delivery has been received whose
    location is the sample (no NaN in it), the handler of the render that
    follows emits nothing for that sample: the echo of the server is what
    stops repeated emissions. *)
Theorem X2_echo_stops_emission (value : Delivery) (s : Position) (w : World) :
  _id value = delivery_id (w_deliveryContext w) ->
  location value = Some s ->
  no_nan s = true ->
  location_changed_events
    (handleBrowserFetchCurrentLocation (render (receive value w)) s) = []
  /\ w_emitted (deliver_sample (render (receive value w)) s (receive value w)) =
     w_emitted w.
Proof.
  intros Hid Hloc Hnan.
  destruct (receive_match value w Hid) as (Hctx & _ & Hem & _).
  assert (Hguard : location_guard (w_deliveryContext (receive value w)) s = false).
  { rewrite Hctx. unfold location_guard, delivery_location. simpl.
    rewrite Hloc. now apply areLocationDifferent_refl. }
  split.
  - rewrite handler_location_changed. simpl. now rewrite Hguard.
  - destruct (deliver_sample_spec (render (receive value w)) s (receive value w))
      as (_ & _ & H).
    rewrite H. simpl. rewrite Hguard, app_nil_r. exact Hem.
Qed.

Lemma X2_echo_stops_emission_witness :
  location_changed_events
    (handleBrowserFetchCurrentLocation
       (render
          (receive (mkDelivery (Some "D1") (Some (mkPosition 1%float 1%float)) "open")
             (session true
                (mkDeliveryContext
                   (Some (mkDelivery (Some "D1") (Some (mkPosition 0%float 0%float)) "open")))
                [SampleResolved 0 (mkPosition 1%float 1%float)])))
       (mkPosition 1%float 1%float)) = []
  /\ w_emitted
       (deliver_sample
          (render
             (receive (mkDelivery (Some "D1") (Some (mkPosition 1%float 1%float)) "open")
                (session true
                   (mkDeliveryContext
                      (Some (mkDelivery (Some "D1") (Some (mkPosition 0%float 0%float)) "open")))
                   [SampleResolved 0 (mkPosition 1%float 1%float)])))
          (mkPosition 1%float 1%float)
          (receive (mkDelivery (Some "D1") (Some (mkPosition 1%float 1%float)) "open")
             (session true
                (mkDeliveryContext
                   (Some (mkDelivery (Some "D1") (Some (mkPosition 0%float 0%float)) "open")))
                [SampleResolved 0 (mkPosition 1%float 1%float)]))) =
     w_emitted
       (session true
          (mkDeliveryContext
             (Some (mkDelivery (Some "D1") (Some (mkPosition 0%float 0%float)) "open")))
          [SampleResolved 0 (mkPosition 1%float 1%float)]).
Proof.
  apply (X2_echo_stops_emission
           (mkDelivery (Some "D1") (Some (mkPosition 1%float 1%float)) "open")
           (mkPosition 1%float 1%float)
           (session true
              (mkDeliveryContext
                 (Some (mkDelivery (Some "D1") (Some (mkPosition 0%float 0%float)) "open")))
              [SampleResolved 0 (mkPosition 1%float 1%float)]));
    reflexivity.
Defined.

Lemma runCleanup_next (w : World) :
  w_nextTimerId (runCleanup w) = w_nextTimerId w.
Proof.
  unfold runCleanup, intervalCleanup.
  destruct (w_cleanup w); [|reflexivity].
  destruct (fetchCurrentPositionIntervalId w) as [id|]; [|reflexivity].
  now destruct (Z.eqb id 0).
Qed.

Lemma rerender_arms (w : World) :
  hooks_ok w -> sampling_allowed (w_deliveryContext w) = true ->
  w_timers (rerender w) = [mkTimer (w_nextTimerId w) samplingPeriod (render w)]
  /\ w_nextTimerId (rerender w) = (w_nextTimerId w + 1)%Z
  /\ fetchCurrentPositionIntervalId (rerender w) = Some (w_nextTimerId w).
Proof.
  intros Hok Hallowed.
  destruct (runCleanup_disarms w Hok) as (Ht & _ & _).
  destruct (runCleanup_frame w) as (Hcp & Hctx & _).
  unfold rerender, intervalEffect. rewrite Hctx, Hallowed. simpl.
  rewrite Ht, runCleanup_next. unfold render. rewrite Hcp, Hctx.
  now repeat split.
Qed.

Lemma rerender_disarms (w : World) :
  hooks_ok w -> sampling_allowed (w_deliveryContext w) = false ->
  w_timers (rerender w) = [].
Proof.
  intros Hok Hallowed.
  destruct (runCleanup_disarms w Hok) as (Ht & _ & _).
  destruct (runCleanup_frame w) as (_ & Hctx & _).
  unfold rerender, intervalEffect. rewrite Hctx, Hallowed. simpl. exact Ht.
Qed.

(** A sample the handler finds not different from its [currentPosition]
    touches nothing but the socket. *)
Lemma deliver_sample_still (r : Render) (s : Position) (w : World) :
  areLocationDifferent (Some s) (currentPosition r) = false ->
  deliver_sample r s w =
  set_emitted
    (w_emitted w ++
     (if location_guard (deliveryContext r) s
      then [(LocationChanged, locationChangedPayload (deliveryContext r) s)]
      else [])) w.
Proof.
  intros H. unfold deliver_sample, handleBrowserFetchCurrentLocation, run_effects.
  rewrite H. simpl.
  destruct (location_guard (deliveryContext r) s); simpl; [reflexivity|].
  rewrite app_nil_r. now destruct w.
Qed.

(** X3.  A sample restarts the interval exactly when it changes
    LocalPosition.  If the handler finds it not different from its
    [currentPosition], the armed intervals, the ref and the id counter stay as
    they are.  If it finds it different and sampling is allowed, the one
    armed interval is replaced by a new one, with a fresh id and the full
    period, closing over the new position. *)
Theorem X3_interval_restarts_on_position_change
        (r : Render) (s : Position) (w : World) :
  (areLocationDifferent (Some s) (currentPosition r) = false ->
   w_timers (deliver_sample r s w) = w_timers w
   /\ w_nextTimerId (deliver_sample r s w) = w_nextTimerId w
   /\ fetchCurrentPositionIntervalId (deliver_sample r s w) =
      fetchCurrentPositionIntervalId w)
  /\ (areLocationDifferent (Some s) (currentPosition r) = true ->
      hooks_ok w ->
      sampling_allowed (w_deliveryContext w) = true ->
      w_timers (deliver_sample r s w) =
        [mkTimer (w_nextTimerId w) 20000
           (mkRender (Some s) (w_deliveryContext w))]
      /\ w_nextTimerId (deliver_sample r s w) = (w_nextTimerId w + 1)%Z
      /\ fetchCurrentPositionIntervalId (deliver_sample r s w) =
         Some (w_nextTimerId w)).
Proof.
  split.
  - intros H. rewrite (deliver_sample_still r s w H). now repeat split.
  - intros H Hok Hallowed.
    destruct (rerender_arms (set_currentPosition (Some s) w) Hok Hallowed)
      as (Ht & Hn & Href).
    unfold deliver_sample, handleBrowserFetchCurrentLocation, run_effects.
    rewrite H. simpl.
    destruct (location_guard (deliveryContext r) s); simpl;
      rewrite Ht, Hn, Href; now repeat split.
Qed.

Lemma X3_interval_restarts_on_position_change_witness :
  w_timers
    (deliver_sample (mkRender None (mkDeliveryContext None))
       (mkPosition 1%float 1%float)
       (session true (mkDeliveryContext None) [])) =
  [mkTimer
     (w_nextTimerId (session true (mkDeliveryContext None) []))
     20000
     (mkRender (Some (mkPosition 1%float 1%float))
        (w_deliveryContext (session true (mkDeliveryContext None) [])))]
  /\ w_timers
       (deliver_sample
          (mkRender (Some (mkPosition 1%float 1%float)) (mkDeliveryContext None))
          (mkPosition 1%float 1%float)
          (session true (mkDeliveryContext None) [])) =
     w_timers (session true (mkDeliveryContext None) []).
Proof.
  split.
  - apply (proj2 (X3_interval_restarts_on_position_change
                    (mkRender None (mkDeliveryContext None))
                    (mkPosition 1%float 1%float)
                    (session true (mkDeliveryContext None) []))).
    + reflexivity.
    + split; [reflexivity|]. left. split; [reflexivity|].
      eexists. split; [reflexivity|]. simpl. repeat split. discriminate.
    + reflexivity.
  - apply (proj1 (X3_interval_restarts_on_position_change
                    (mkRender (Some (mkPosition 1%float 1%float))
                       (mkDeliveryContext None))
                    (mkPosition 1%float 1%float)
                    (session true (mkDeliveryContext None) []))).
    reflexivity.
Defined.

(** X4.  A sample without NaN that arrives a second time, each time handled
    by the handler of the render then current, changes nothing but the
    socket the second time: LocalPosition, the armed interval and the id
    counter stay, so a courier at rest never restarts the interval. *)
Theorem X4_repeated_sample_does_not_restart (s : Position) (w : World) :
  no_nan s = true ->
  w_currentPosition
    (deliver_sample (render (deliver_sample (render w) s w)) s
       (deliver_sample (render w) s w)) =
  w_currentPosition (deliver_sample (render w) s w)
  /\ w_timers
       (deliver_sample (render (deliver_sample (render w) s w)) s
          (deliver_sample (render w) s w)) =
     w_timers (deliver_sample (render w) s w)
  /\ w_nextTimerId
       (deliver_sample (render (deliver_sample (render w) s w)) s
          (deliver_sample (render w) s w)) =
     w_nextTimerId (deliver_sample (render w) s w).
Proof.
  intros Hnan.
  assert (Hsame : areLocationDifferent (Some s)
                    (currentPosition (render (deliver_sample (render w) s w)))
                  = false).
  { simpl. destruct (deliver_sample_spec (render w) s w) as (H1 & _).
    rewrite H1. simpl.
    destruct (areLocationDifferent (Some s) (w_currentPosition w)) eqn:Hd.
    - now apply areLocationDifferent_refl.
    - exact Hd. }
  rewrite (deliver_sample_still _ s (deliver_sample (render w) s w) Hsame).
  now repeat split.
Qed.

Lemma X4_repeated_sample_does_not_restart_witness :
  w_timers
    (deliver_sample
       (render
          (deliver_sample (render (session true (mkDeliveryContext None) []))
             (mkPosition 1%float 1%float)
             (session true (mkDeliveryContext None) [])))
       (mkPosition 1%float 1%float)
       (deliver_sample (render (session true (mkDeliveryContext None) []))
          (mkPosition 1%float 1%float)
          (session true (mkDeliveryContext None) []))) =
  w_timers
    (deliver_sample (render (session true (mkDeliveryContext None) []))
       (mkPosition 1%float 1%float)
       (session true (mkDeliveryContext None) [])).
Proof.
  apply (X4_repeated_sample_does_not_restart (mkPosition 1%float 1%float)
           (session true (mkDeliveryContext None) [])).
  reflexivity.
Defined.

(** ** The armed interval closes over the current render *)

Lemma rerender_current (w : World) : hooks_ok w -> timers_current (rerender w).
Proof.
  intros Hok. split; [apply (rerender_gated w Hok)|].
  destruct (rerender_frame w) as (Hcp & Hctx & _).
  destruct (sampling_allowed (w_deliveryContext w)) eqn:Hallowed.
  - destruct (rerender_arms w Hok Hallowed) as (Ht & _).
    rewrite Ht. intros t [<-|[]]. simpl. unfold render. now rewrite Hcp, Hctx.
  - rewrite (rerender_disarms w Hok Hallowed). intros t [].
Qed.

Lemma run_effect_current (w : World) (e : Effect) :
  timers_current w -> timers_current (run_effect w e).
Proof.
  intros [Hok Hcur]. destruct e as [p | ev pl | value]; simpl.
  - now apply rerender_current.
  - now split.
  - now apply rerender_current.
Qed.

Lemma run_effects_current (l : list Effect) (w : World) :
  timers_current w -> timers_current (run_effects l w).
Proof.
  unfold run_effects. revert w.
  induction l as [|e l IH]; intros w Hw; simpl; [assumption|].
  apply IH. now apply run_effect_current.
Qed.

Lemma requestCurrentPosition_current (r : Render) (w : World) :
  timers_current w -> timers_current (requestCurrentPosition r w).
Proof.
  unfold requestCurrentPosition. now destruct (w_geolocation w).
Qed.

Lemma step_current (w : World) (ev : Event) :
  timers_current w -> timers_current (step w ev).
Proof.
  intros Hw. destruct ev as [id | n location | n | value | t | ]; simpl.
  - destruct (find _ (w_timers w)); [|assumption].
    now apply requestCurrentPosition_current.
  - destruct (nth_error (w_requests w) n); [|assumption].
    unfold deliver_sample. now apply run_effects_current.
  - assumption.
  - unfold receive. now apply run_effects_current.
  - unfold press. now apply run_effects_current.
  - apply rerender_current, Hw.
Qed.

Lemma mount_current (geolocation : bool) (ctx : DeliveryContext) :
  timers_current (mount (initial geolocation ctx)).
Proof.
  split; [apply mount_gated|].
  unfold mount, mountEffect, requestCurrentPosition, intervalEffect.
  destruct geolocation; simpl;
    destruct (sampling_allowed ctx); simpl; intros t Ht;
    try contradiction; destruct Ht as [<-|[]]; reflexivity.
Qed.

(** X5.  In every state a mounted component reaches, an armed interval
    closes over the values of the current render: the sample a tick requests
    is compared, if it resolves before the next render, with the latest
    LocalPosition and the latest held delivery. *)
Theorem X5_armed_interval_is_current
        (geolocation : bool) (ctx : DeliveryContext) (evs : list Event)
        (t : Timer) :
  In t (w_timers (session geolocation ctx evs)) ->
  timer_render t = render (session geolocation ctx evs).
Proof.
  assert (H : timers_current (session geolocation ctx evs)).
  { unfold session, run.
    generalize (mount_current geolocation ctx).
    generalize (mount (initial geolocation ctx)).
    induction evs as [|ev evs IH]; intros w Hw; simpl; [assumption|].
    apply IH. now apply step_current. }
  apply H.
Qed.

Lemma X5_armed_interval_is_current_witness :
  timer_render
    (mkTimer 2 20000
       (mkRender (Some (mkPosition 1%float 1%float)) (mkDeliveryContext None))) =
  render
    (session true (mkDeliveryContext None)
       [SampleResolved 0 (mkPosition 1%float 1%float)]).
Proof.
  apply (X5_armed_interval_is_current true (mkDeliveryContext None)
           [SampleResolved 0 (mkPosition 1%float 1%float)]).
  left. reflexivity.
Defined.

(** ** The delivery a session tracks *)

Lemma handler_effect_tracks (r : Render) (s : Position) :
  Forall (effect_tracks (delivery_id (deliveryContext r)))
    (handleBrowserFetchCurrentLocation r s).
Proof.
  unfold handleBrowserFetchCurrentLocation. apply Forall_app. split.
  - destruct (areLocationDifferent (Some s) (currentPosition r));
      repeat constructor.
  - destruct (location_guard (deliveryContext r) s); repeat constructor.
Qed.

Lemma listener_effect_tracks (r : Render) (value : Delivery) :
  Forall (effect_tracks (delivery_id (deliveryContext r)))
    (onDeliveryUpdatedEvent r value).
Proof.
  unfold onDeliveryUpdatedEvent.
  destruct (JS.strict_eq_str (_id value) (delivery_id (deliveryContext r)))
    eqn:Heq; constructor; [|constructor].
  simpl. now apply strict_eq_str_spec.
Qed.

Lemma trigger_effect_tracks (t : Trigger) (r : Render) :
  Forall (effect_tracks (delivery_id (deliveryContext r))) (trigger_handler t r).
Proof. destruct t; repeat constructor. Qed.

Lemma rerender_tracks (i : option string) (w : World) :
  tracks i w -> tracks i (rerender w).
Proof.
  intros (Hid & Hreq & Htim & Hem).
  destruct (rerender_frame w) as (_ & Hctx & Hemitted & Hrequests & _).
  unfold tracks. rewrite Hctx, Hemitted, Hrequests.
  repeat split; try assumption.
  assert (Hclean : Forall
            (fun t => delivery_id (deliveryContext (timer_render t)) = i)
            (w_timers (runCleanup w))).
  { unfold runCleanup, intervalCleanup.
    destruct (w_cleanup w); [|assumption].
    destruct (fetchCurrentPositionIntervalId w) as [id|]; [|assumption].
    destruct (Z.eqb id 0); [assumption|].
    simpl. rewrite Forall_forall in *. intros t Ht.
    apply filter_In in Ht. now apply Htim. }
  destruct (runCleanup_frame w) as (_ & Hctx' & _).
  unfold rerender, intervalEffect.
  destruct (sampling_allowed (w_deliveryContext (runCleanup w))); simpl;
    [|assumption].
  apply Forall_app. split; [assumption|].
  constructor; [|constructor]. simpl. now rewrite Hctx'.
Qed.

Lemma run_effect_tracks (i : option string) (w : World) (e : Effect) :
  tracks i w -> effect_tracks i e -> tracks i (run_effect w e).
Proof.
  intros (Hid & Hreq & Htim & Hem) He.
  destruct e as [p | ev pl | value]; simpl in *.
  - apply rerender_tracks. now repeat split.
  - repeat split; try assumption. simpl.
    apply Forall_app. split; [assumption|]. now repeat constructor.
  - apply rerender_tracks. now repeat split.
Qed.

Lemma run_effects_tracks (i : option string) (l : list Effect) (w : World) :
  tracks i w -> Forall (effect_tracks i) l -> tracks i (run_effects l w).
Proof.
  unfold run_effects. revert w.
  induction l as [|e l IH]; intros w Hw Hl; simpl; [assumption|].
  inversion Hl as [|? ? He Hl']; subst.
  apply IH; [|assumption]. now apply run_effect_tracks.
Qed.

Lemma remove_nth_In {A : Type} (n : nat) (l : list A) (x : A) :
  In x (remove_nth n l) -> In x l.
Proof.
  revert n. induction l as [|y l IH]; intros [|n] H; simpl in *;
    try contradiction.
  - now right.
  - destruct H as [->|H]; [now left|right; eauto].
Qed.

Lemma step_tracks (i : option string) (w : World) (ev : Event) :
  tracks i w -> tracks i (step w ev).
Proof.
  intros Hw. pose proof Hw as (Hid & Hreq & Htim & Hem).
  assert (Hrm : forall n, tracks i (set_requests (remove_nth n (w_requests w)) w)).
  { intros n. repeat split; try assumption. simpl.
    rewrite Forall_forall in *. intros r Hr.
    apply Hreq. now apply remove_nth_In in Hr. }
  destruct ev as [id | n location | n | value | t | ]; simpl.
  - destruct (find _ (w_timers w)) as [t|] eqn:Hfind; [|assumption].
    apply find_some in Hfind as [Hin _].
    unfold requestCurrentPosition.
    destruct (w_geolocation w); [|assumption].
    repeat split; try assumption. simpl.
    apply Forall_app. split; [assumption|].
    constructor; [|constructor].
    rewrite Forall_forall in Htim. now apply Htim.
  - destruct (nth_error (w_requests w) n) as [r|] eqn:Hnth; [|assumption].
    apply nth_error_In in Hnth.
    unfold deliver_sample. apply run_effects_tracks; [apply Hrm|].
    rewrite Forall_forall in Hreq. rewrite <- (Hreq r Hnth).
    apply handler_effect_tracks.
  - apply Hrm.
  - unfold receive. apply run_effects_tracks; [assumption|].
    rewrite <- Hid. apply (listener_effect_tracks (render w)).
  - unfold press. apply run_effects_tracks; [assumption|].
    rewrite <- Hid. apply (trigger_effect_tracks t (render w)).
  - now apply rerender_tracks.
Qed.

Lemma session_tracks (geolocation : bool) (ctx : DeliveryContext)
      (evs : list Event) :
  tracks (delivery_id ctx) (session geolocation ctx evs).
Proof.
  unfold session, run.
  assert (H0 : tracks (delivery_id ctx) (mount (initial geolocation ctx))).
  { unfold mount, mountEffect, requestCurrentPosition, intervalEffect.
    destruct geolocation; simpl; destruct (sampling_allowed ctx); simpl;
      repeat split; repeat constructor. }
  revert H0. generalize (mount (initial geolocation ctx)).
  induction evs as [|ev evs IH]; intros w Hw; simpl; [assumption|].
  apply IH. now apply step_tracks.
Qed.

(** X6.  The id of the held delivery never changes while the component is
    mounted, whatever snapshots arrive, and every message the component
    sends in the session, [location_changed] or [status_changed], from a
    fresh or a stale closure, carries that id. *)
Theorem X6_session_tracks_one_delivery
        (geolocation : bool) (ctx : DeliveryContext) (evs : list Event) :
  delivery_id (w_deliveryContext (session geolocation ctx evs)) = delivery_id ctx
  /\ Forall (fun m => payload_delivery_id (snd m) = delivery_id ctx)
       (w_emitted (session geolocation ctx evs)).
Proof.
  destruct (session_tracks geolocation ctx evs) as (Hid & _ & _ & Hem).
  now split.
Qed.

(** ** What goes on the wire *)

Lemma handler_wire_ok (r : Render) (s : Position) :
  Forall effect_wire_ok (handleBrowserFetchCurrentLocation r s).
Proof.
  unfold handleBrowserFetchCurrentLocation. apply Forall_app. split.
  - destruct (areLocationDifferent (Some s) (currentPosition r));
      repeat constructor.
  - destruct (location_guard (deliveryContext r) s); repeat constructor.
Qed.

Lemma trigger_wire_ok (t : Trigger) (r : Render) :
  Forall effect_wire_ok (trigger_handler t r).
Proof.
  destruct t; (constructor; [|constructor]); simpl;
    (split; [reflexivity|]); simpl; tauto.
Qed.

Lemma listener_wire_ok (r : Render) (value : Delivery) :
  Forall effect_wire_ok (onDeliveryUpdatedEvent r value).
Proof.
  unfold onDeliveryUpdatedEvent.
  destruct (JS.strict_eq_str _ _); repeat constructor.
Qed.

Lemma run_effects_wire_ok (l : list Effect) (w : World) :
  Forall wire_ok (w_emitted w) -> Forall effect_wire_ok l ->
  Forall wire_ok (w_emitted (run_effects l w)).
Proof.
  unfold run_effects. revert w.
  induction l as [|e l IH]; intros w Hw Hl; simpl; [assumption|].
  inversion Hl as [|? ? He Hl']; subst.
  apply IH; [|assumption].
  destruct e as [p | ev pl | value]; simpl.
  - now destruct (rerender_frame (set_currentPosition (Some p) w))
      as (_ & _ & -> & _).
  - apply Forall_app. split; [assumption|]. now repeat constructor.
  - now destruct (rerender_frame
                    (set_deliveryContext
                       (updateDelivery value (w_deliveryContext w)) w))
      as (_ & _ & -> & _).
Qed.

Lemma step_wire_ok (w : World) (ev : Event) :
  Forall wire_ok (w_emitted w) -> Forall wire_ok (w_emitted (step w ev)).
Proof.
  intros Hw. destruct ev as [id | n location | n | value | t | ]; simpl.
  - destruct (find _ (w_timers w)); [|assumption].
    unfold requestCurrentPosition. now destruct (w_geolocation w).
  - destruct (nth_error (w_requests w) n) as [r|]; [|assumption].
    unfold deliver_sample.
    apply run_effects_wire_ok; [assumption|apply handler_wire_ok].
  - assumption.
  - unfold receive.
    apply run_effects_wire_ok; [assumption|apply listener_wire_ok].
  - unfold press.
    apply run_effects_wire_ok; [assumption|apply trigger_wire_ok].
  - now destruct (rerender_frame w) as (_ & _ & -> & _).
Qed.

(** X7.  Every message a mounted component sends is either a
    [location_changed] event whose payload says ["location_changed"], or a
    [status_changed] event whose payload says ["status_changed"] and whose
    status is one of ['picked-up'], ['in-transit'], ['delivered'],
    ['failed']; it never sends [delivery_updated], nor the status ['open']. *)
Theorem X7_only_well_formed_messages
        (geolocation : bool) (ctx : DeliveryContext) (evs : list Event) :
  Forall wire_ok (w_emitted (session geolocation ctx evs)).
Proof.
  unfold session, run.
  assert (H0 : Forall wire_ok (w_emitted (mount (initial geolocation ctx)))).
  { unfold mount.
    destruct (intervalEffect_frame (mountEffect (initial geolocation ctx)))
      as (_ & _ & -> & _).
    unfold mountEffect, requestCurrentPosition. simpl.
    destruct geolocation; constructor. }
  revert H0. generalize (mount (initial geolocation ctx)).
  induction evs as [|ev evs IH]; intros w Hw; simpl; [assumption|].
  apply IH. now apply step_wire_ok.
Qed.

(** ** Without a location provider *)

Lemma receive_frame (value : Delivery) (w : World) :
  w_currentPosition (receive value w) = w_currentPosition w
  /\ w_emitted (receive value w) = w_emitted w
  /\ w_requests (receive value w) = w_requests w
  /\ w_geolocation (receive value w) = w_geolocation w.
Proof.
  unfold receive, onDeliveryUpdatedEvent. simpl.
  destruct (JS.strict_eq_str (_id value) (delivery_id (w_deliveryContext w)));
    simpl; [|now repeat split].
  destruct (rerender_frame
              (set_deliveryContext
                 (updateDelivery value (w_deliveryContext w)) w))
    as (H1 & _ & H3 & H4 & H5).
  now rewrite H1, H3, H4, H5.
Qed.

Lemma press_frame (t : Trigger) (w : World) :
  w_currentPosition (press t w) = w_currentPosition w
  /\ w_requests (press t w) = w_requests w
  /\ w_geolocation (press t w) = w_geolocation w
  /\ location_changed_count (press t w) = location_changed_count w
  /\ emitted_locations (w_emitted (press t w)) = emitted_locations (w_emitted w).
Proof.
  assert (Hloc : forall l p,
             emitted_locations (l ++ [(StatusChanged, StatusPayload p)]) =
             emitted_locations l).
  { induction l as [|[e [q|q]] l IH]; intros p; simpl; now rewrite ?IH. }
  destruct t; unfold press, location_changed_count; simpl;
    rewrite filter_app, length_app, Hloc; simpl;
    repeat split; lia.
Qed.

(** X8.  When the navigator has no geolocation, the component never requests
    a sample: in every state it reaches no request is in flight,
    LocalPosition is still absent, and no [location_changed] event has been
    sent. *)
Theorem X8_no_provider_no_sampling (ctx : DeliveryContext) (evs : list Event) :
  w_requests (session false ctx evs) = []
  /\ w_currentPosition (session false ctx evs) = None
  /\ location_changed_count (session false ctx evs) = 0.
Proof.
  unfold session, run.
  assert (H0 : w_geolocation (mount (initial false ctx)) = false
               /\ w_requests (mount (initial false ctx)) = []
               /\ w_currentPosition (mount (initial false ctx)) = None
               /\ location_changed_count (mount (initial false ctx)) = 0).
  { unfold mount, location_changed_count.
    destruct (intervalEffect_frame (mountEffect (initial false ctx)))
      as (-> & _ & -> & -> & ->).
    now repeat split. }
  revert H0. generalize (mount (initial false ctx)).
  induction evs as [|ev evs IH]; intros w (Hgeo & Hreq & Hcp & Hcount); simpl;
    [now repeat split|].
  apply IH.
  destruct ev as [id | n location | n | value | t | ]; simpl.
  - destruct (find _ (w_timers w)); [|now repeat split].
    unfold requestCurrentPosition. rewrite Hgeo. now repeat split.
  - rewrite Hreq. destruct n; simpl; now repeat split.
  - rewrite Hreq. destruct n; simpl; now repeat split.
  - destruct (receive_frame value w) as (H1 & H2 & H3 & H4).
    unfold location_changed_count. rewrite H1, H2, H3, H4.
    now repeat split.
  - destruct (press_frame t w) as (H1 & H2 & H3 & H4 & _).
    rewrite H1, H2, H3, H4. now repeat split.
  - destruct (rerender_frame w) as (H1 & _ & H3 & H4 & H5).
    unfold location_changed_count. rewrite H1, H3, H4, H5.
    now repeat split.
Qed.

(** ** Where positions come from *)

Lemma run_snoc (evs : list Event) (ev : Event) (w : World) :
  run (evs ++ [ev]) w = step (run evs w) ev.
Proof. unfold run. now rewrite fold_left_app. Qed.

Lemma sample_locations_app (evs evs' : list Event) :
  sample_locations (evs ++ evs') = sample_locations evs ++ sample_locations evs'.
Proof.
  induction evs as [|[id | n location | n | value | t | ] evs IH]; simpl;
    now rewrite ?IH.
Qed.

Lemma emitted_locations_app (l l' : list (SocketEvent * Payload)) :
  emitted_locations (l ++ l') = emitted_locations l ++ emitted_locations l'.
Proof.
  induction l as [|[e [q|q]] l IH]; simpl; now rewrite ?IH.
Qed.

(** LocalPosition and the locations sent are locations of samples that
    resolved. *)
Lemma session_positions (geolocation : bool) (ctx : DeliveryContext)
      (evs : list Event) :
  (forall p, w_currentPosition (session geolocation ctx evs) = Some p ->
             In p (sample_locations evs))
  /\ incl (emitted_locations (w_emitted (session geolocation ctx evs)))
       (sample_locations evs).
Proof.
  induction evs as [|ev evs IH] using rev_ind.
  - unfold session, run, mount. simpl.
    destruct (intervalEffect_frame (mountEffect (initial geolocation ctx)))
      as (-> & _ & -> & _).
    unfold mountEffect, requestCurrentPosition. simpl.
    destruct geolocation; simpl; split;
      (discriminate || apply incl_nil_l).
  - destruct IH as [IHcp IHem].
    unfold session in *. rewrite run_snoc, sample_locations_app.
    set (w := run evs (mount (initial geolocation ctx))) in *.
    assert (Hkeep : forall w',
               w_currentPosition w' = w_currentPosition w ->
               emitted_locations (w_emitted w') = emitted_locations (w_emitted w) ->
               (forall p, w_currentPosition w' = Some p ->
                          In p (sample_locations evs ++ sample_locations [ev]))
               /\ incl (emitted_locations (w_emitted w'))
                    (sample_locations evs ++ sample_locations [ev])).
    { intros w' -> ->. split.
      - intros p Hp. apply in_or_app. left. now apply IHcp.
      - now apply incl_appl. }
    destruct ev as [id | n location | n | value | t | ]; simpl.
    + apply Hkeep; destruct (find _ (w_timers w)); try reflexivity;
        unfold requestCurrentPosition; now destruct (w_geolocation w).
    + destruct (nth_error (w_requests w) n) as [r|]; [|now apply Hkeep].
      destruct (deliver_sample_spec r location
                  (set_requests (remove_nth n (w_requests w)) w))
        as (H1 & _ & H3).
      rewrite H1, H3, emitted_locations_app. simpl. split.
      * intros p Hp. apply in_or_app.
        destruct (areLocationDifferent (Some location) (currentPosition r)).
        -- right. injection Hp as <-. now left.
        -- left. now apply IHcp.
      * apply incl_app; [now apply incl_appl|].
        apply incl_appr.
        destruct (location_guard (deliveryContext r) location); simpl;
          [|apply incl_nil_l].
        intros p [<-|[]]. now left.
    + now apply Hkeep.
    + destruct (receive_frame value w) as (H1 & H2 & _).
      apply Hkeep; [assumption|now rewrite H2].
    + destruct (press_frame t w) as (H1 & _ & _ & _ & H5).
      now apply Hkeep.
    + destruct (rerender_frame w) as (H1 & _ & H3 & _).
      apply Hkeep; [assumption|now rewrite H3].
Qed.

(** X9.  LocalPosition, when present, is the location of a sample that
    resolved in the session, and so is the location carried by every
    [location_changed] event sent: the component invents no coordinate and
    never sends the stored location of the delivery back. *)
Theorem X9_positions_come_from_samples
        (geolocation : bool) (ctx : DeliveryContext) (evs : list Event) :
  (forall p, w_currentPosition (session geolocation ctx evs) = Some p ->
             In p (sample_locations evs))
  /\ incl (emitted_locations (w_emitted (session geolocation ctx evs)))
       (sample_locations evs).
Proof. apply session_positions. Qed.

Lemma X9_positions_come_from_samples_witness :
  In (mkPosition 1%float 1%float)
    (sample_locations [SampleResolved 0 (mkPosition 1%float 1%float)]).
Proof.
  apply (proj1 (X9_positions_come_from_samples true (mkDeliveryContext None)
                  [SampleResolved 0 (mkPosition 1%float 1%float)])).
  reflexivity.
Defined.

(** ** The inbound path *)

(** X10.  A [delivery_updated] event, accepted or not, sends nothing, leaves
    LocalPosition as it is and cancels no position request in flight; nor
    does unmounting: the callback of a request made earlier still runs its
    handler afterwards. *)
Theorem X10_inbound_update_cancels_nothing (value : Delivery) (w : World) :
  w_emitted (receive value w) = w_emitted w
  /\ w_currentPosition (receive value w) = w_currentPosition w
  /\ w_requests (receive value w) = w_requests w
  /\ w_requests (unmount w) = w_requests w
  /\ w_emitted (unmount w) = w_emitted w.
Proof.
  destruct (receive_frame value w) as (H1 & H2 & H3 & _).
  destruct (runCleanup_frame w) as (_ & _ & K3 & K4 & _).
  unfold unmount. now repeat split.
Qed.

Lemma last_cons {A : Type} (a d : A) (l : list A) :
  last (a :: l) d = last l a.
Proof.
  revert a d. induction l as [|b l IH]; intros a d; [reflexivity|].
  change (last (a :: b :: l) d) with (last (b :: l) d).
  now rewrite (IH b d), (IH b a).
Qed.

(** X11.  Of a sequence of snapshots, the held delivery ends as the last one
    whose [_id] equals the held id, whole; snapshots for other deliveries in
    between are skipped, and with none matching the held delivery stays. *)
Theorem X11_last_matching_snapshot_wins (vs : list Delivery) (w : World) :
  w_deliveryContext (run (map Received vs) w) =
  last
    (map (fun v => mkDeliveryContext (Some v))
       (filter
          (fun v => JS.strict_eq_str (_id v) (delivery_id (w_deliveryContext w)))
          vs))
    (w_deliveryContext w).
Proof.
  unfold run. revert w.
  induction vs as [|v vs IH]; intros w; simpl; [reflexivity|].
  rewrite IH.
  destruct (JS.strict_eq_str (_id v) (delivery_id (w_deliveryContext w)))
    eqn:Heq.
  - apply strict_eq_str_spec in Heq.
    destruct (receive_match v w Heq) as (Hctx & _).
    rewrite Hctx. simpl map. rewrite last_cons.
    unfold delivery_id at 1. simpl. now rewrite Heq.
  - assert (Hne : _id v <> delivery_id (w_deliveryContext w)).
    { intros H. apply strict_eq_str_spec in H. congruence. }
    now rewrite (receive_mismatch v w Hne).
Qed.

(** ** The map *)

Lemma step_position_kept (w : World) (ev : Event) :
  w_currentPosition w <> None -> w_currentPosition (step w ev) <> None.
Proof.
  intros Hw. destruct ev as [id | n location | n | value | t | ]; simpl.
  - destruct (find _ (w_timers w)); [|assumption].
    unfold requestCurrentPosition. now destruct (w_geolocation w).
  - destruct (nth_error (w_requests w) n) as [r|]; [|assumption].
    destruct (deliver_sample_spec r location
                (set_requests (remove_nth n (w_requests w)) w)) as (H1 & _).
    rewrite H1.
    now destruct (areLocationDifferent (Some location) (currentPosition r)).
  - assumption.
  - now destruct (receive_frame value w) as (-> & _).
  - now destruct (press_frame t w) as (-> & _).
  - now destruct (rerender_frame w) as (-> & _).
Qed.

Lemma run_position_kept (evs : list Event) (w : World) :
  w_currentPosition w <> None -> w_currentPosition (run evs w) <> None.
Proof.
  unfold run. revert w.
  induction evs as [|ev evs IH]; intros w Hw; simpl; [assumption|].
  apply IH. now apply step_position_kept.
Qed.

(** X12.  The map block is rendered exactly when a sample has set
    LocalPosition: a session in which no sample resolved renders none; a
    rendered map is centred on a resolved sample's location, with the marker
    of the current location at its centre; and once rendered the map is
    rendered in every later state. *)
Theorem X12_map_follows_local_position
        (geolocation : bool) (ctx : DeliveryContext) (pc : PackageContext)
        (evs : list Event) :
  (sample_locations evs = [] ->
   mapBlock (render (session geolocation ctx evs)) pc = None)
  /\ (forall m,
         mapBlock (render (session geolocation ctx evs)) pc = Some m ->
         w_currentPosition (session geolocation ctx evs) = Some (map_center m)
         /\ current_marker m = map_center m
         /\ In (map_center m) (sample_locations evs))
  /\ (forall evs',
         mapBlock (render (session geolocation ctx evs)) pc <> None ->
         mapBlock (render (session geolocation ctx (evs ++ evs'))) pc <> None).
Proof.
  destruct (session_positions geolocation ctx evs) as [Hcp _].
  unfold mapBlock. simpl. split; [|split].
  - intros Hnone.
    destruct (w_currentPosition (session geolocation ctx evs)) as [p|] eqn:Hp;
      [|reflexivity].
    specialize (Hcp p eq_refl). rewrite Hnone in Hcp. contradiction.
  - intros m Hm.
    destruct (w_currentPosition (session geolocation ctx evs)) as [p|] eqn:Hp;
      [|discriminate].
    injection Hm as <-. simpl. repeat split. now apply Hcp.
  - intros evs' Hshown.
    assert (Hlater : w_currentPosition (session geolocation ctx (evs ++ evs'))
                     <> None).
    { unfold session, run. rewrite fold_left_app.
      apply run_position_kept.
      destruct (w_currentPosition (session geolocation ctx evs)) eqn:Hp;
        [|contradiction].
      unfold session, run in Hp. rewrite Hp. discriminate. }
    destruct (w_currentPosition (session geolocation ctx (evs ++ evs')));
      [discriminate|contradiction].
Qed.

Lemma X12_map_follows_local_position_witness :
  mapBlock
    (render (session true (mkDeliveryContext None) [Tick 1]))
    (mkPackageContext None) = None
  /\ mapBlock
       (render
          (session true (mkDeliveryContext None)
             ([SampleResolved 0 (mkPosition 1%float 1%float)] ++ [Tick 2])))
       (mkPackageContext None) <> None.
Proof.
  split.
  - apply (proj1 (X12_map_follows_local_position true (mkDeliveryContext None)
                    (mkPackageContext None) [Tick 1])).
    reflexivity.
  - apply (proj2 (proj2 (X12_map_follows_local_position true
                           (mkDeliveryContext None) (mkPackageContext None)
                           [SampleResolved 0 (mkPosition 1%float 1%float)]))).
    discriminate.
Defined.

(** ** The controls *)

Lemma trigger_enabled_status (t : Trigger) (ctx : DeliveryContext) :
  trigger_disabled t ctx = false ->
  delivery_status ctx =
  Some match t with
       | MarkPickedUp => "open"
       | MarkInTransit => "picked-up"
       | MarkDelivered | MarkFailed => "in-transit"
       end.
Proof.
  destruct t; unfold trigger_disabled, JS.strict_neq_str;
    rewrite negb_false_iff, strict_eq_str_spec; trivial.
Qed.

(** X13.  The controls follow the held status.  With no delivery held, or
    with a held status of ['delivered'] or ['failed'], all four are
    disabled.  Two controls are enabled together only if they are the same
    or are "Delivered" and "Failed", which are enabled together.  A control
    is enabled only while the guard of the sampling interval holds. *)
Theorem X13_controls_follow_the_status (ctx : DeliveryContext) :
  (delivery ctx = None -> forall t, trigger_disabled t ctx = true)
  /\ (is_terminal ctx = true -> forall t, trigger_disabled t ctx = true)
  /\ (forall t1 t2,
         trigger_disabled t1 ctx = false ->
         trigger_disabled t2 ctx = false ->
         t1 = t2
         \/ (t1 = MarkDelivered /\ t2 = MarkFailed)
         \/ (t1 = MarkFailed /\ t2 = MarkDelivered))
  /\ trigger_disabled MarkDelivered ctx = trigger_disabled MarkFailed ctx
  /\ (forall t, trigger_disabled t ctx = false -> sampling_allowed ctx = true).
Proof.
  split; [|split; [|split; [|split]]].
  - intros Hnone t. unfold trigger_disabled, delivery_status.
    rewrite Hnone. now destruct t.
  - intros Hterm t.
    destruct (trigger_disabled t ctx) eqn:Hd; [reflexivity|].
    apply trigger_enabled_status in Hd.
    unfold is_terminal in Hterm. rewrite Hd in Hterm. now destruct t.
  - intros t1 t2 H1 H2.
    apply trigger_enabled_status in H1, H2. rewrite H1 in H2.
    destruct t1, t2; try discriminate; auto.
  - reflexivity.
  - intros t Hd. apply trigger_enabled_status in Hd.
    unfold sampling_allowed. rewrite Hd. now destruct t.
Qed.

Lemma X13_controls_follow_the_status_witness :
  (forall t, trigger_disabled t (mkDeliveryContext None) = true)
  /\ sampling_allowed
       (mkDeliveryContext (Some (mkDelivery (Some "D1") None "in-transit")))
     = true.
Proof.
  split.
  - apply (proj1 (X13_controls_follow_the_status (mkDeliveryContext None))).
    reflexivity.
  - apply (proj2 (proj2 (proj2 (proj2
             (X13_controls_follow_the_status
                (mkDeliveryContext
                   (Some (mkDelivery (Some "D1") None "in-transit")))))))
             MarkDelivered).
    reflexivity.
Defined.

(** X14.  When the snapshot that confirms what a control sent arrives (the
    id and the status of the payload the control emitted), that control is
    disabled afterwards, and the lifecycle moves on: after "Picked Up" the
    control "In-Transit" is enabled; after "In-Transit" both "Delivered" and
    "Failed" are; after "Delivered" or "Failed" the status is terminal and
    every control is disabled. *)
Theorem X14_confirmation_moves_the_controls
        (t : Trigger) (w : World) (p : StatusChangedPayload) (value : Delivery) :
  trigger_handler t (render w) = [Emit StatusChanged (StatusPayload p)] ->
  _id value = sc_delivery_id p ->
  status value = sc_status p ->
  trigger_disabled t (w_deliveryContext (receive value w)) = true
  /\ match t with
     | MarkPickedUp =>
         trigger_disabled MarkInTransit (w_deliveryContext (receive value w))
         = false
     | MarkInTransit =>
         trigger_disabled MarkDelivered (w_deliveryContext (receive value w))
         = false
         /\ trigger_disabled MarkFailed (w_deliveryContext (receive value w))
            = false
     | MarkDelivered | MarkFailed =>
         is_terminal (w_deliveryContext (receive value w)) = true
         /\ forall t', trigger_disabled t' (w_deliveryContext (receive value w))
                       = true
     end.
Proof.
  intros Hh Hid Hst.
  assert (Hp : sc_delivery_id p = delivery_id (w_deliveryContext w)
               /\ sc_status p =
                  match t with
                  | MarkPickedUp => "picked-up"
                  | MarkInTransit => "in-transit"
                  | MarkDelivered => "delivered"
                  | MarkFailed => "failed"
                  end).
  { destruct t; injection Hh as <-; now split. }
  destruct Hp as [Hpid Hpst].
  rewrite Hpid in Hid. rewrite Hpst in Hst.
  destruct (receive_match value w Hid) as (Hctx & _).
  rewrite Hctx.
  unfold trigger_disabled, is_terminal, delivery_status. simpl. rewrite Hst.
  destruct t; simpl; repeat split; intros t'; now destruct t'.
Qed.

Lemma X14_confirmation_moves_the_controls_witness :
  trigger_disabled MarkPickedUp
    (w_deliveryContext
       (receive (mkDelivery (Some "D1") None "picked-up")
          (session true
             (mkDeliveryContext (Some (mkDelivery (Some "D1") None "open")))
             []))) = true
  /\ trigger_disabled MarkInTransit
       (w_deliveryContext
          (receive (mkDelivery (Some "D1") None "picked-up")
             (session true
                (mkDeliveryContext (Some (mkDelivery (Some "D1") None "open")))
                []))) = false.
Proof.
  apply (X14_confirmation_moves_the_controls MarkPickedUp
           (session true
              (mkDeliveryContext (Some (mkDelivery (Some "D1") None "open")))
              [])
           (mkStatusChanged "status_changed" (Some "D1") "picked-up")
           (mkDelivery (Some "D1") None "picked-up")); reflexivity.
Defined.

(** ** The markers of the package *)

(** X15.  A package location gets a marker exactly when it is present and
    both its latitude and its longitude are truthy numbers, and the marker
    then sits at that location with the glyph asked for.  A location on the
    equator or on the prime meridian (a zero latitude or longitude) gets no
    marker: the expression yields a falsy number in its place. *)
Theorem X15_marker_needs_truthy_coordinates (loc : option Position) (glyph : string) :
  (forall q g,
      marker_child loc glyph = ChildMarker q g ->
      loc = Some q /\ g = glyph
      /\ number_truthy (lat q) = true /\ number_truthy (lng q) = true)
  /\ (forall p,
         loc = Some p ->
         number_truthy (lat p) = true -> number_truthy (lng p) = true ->
         marker_child loc glyph = ChildMarker p glyph)
  /\ (forall p,
         loc = Some p ->
         PrimFloat.eqb (lat p) 0%float = true
         \/ PrimFloat.eqb (lng p) 0%float = true ->
         exists x, marker_child loc glyph = ChildNumber x
                   /\ number_truthy x = false).
Proof.
  split; [|split].
  - intros q g H. destruct loc as [[a b]|]; [|discriminate].
    unfold marker_child in H. simpl in H.
    destruct (number_truthy a) eqn:Ha; [|discriminate].
    destruct (number_truthy b) eqn:Hb; [|discriminate].
    injection H as <- <-. simpl. now repeat split.
  - intros [a b] -> Ha Hb. unfold marker_child. simpl in *.
    now rewrite Ha, Hb.
  - intros [a b] -> Hzero. unfold marker_child. simpl in *.
    destruct (number_truthy a) eqn:Ha; [|now exists a].
    destruct (number_truthy b) eqn:Hb; [|now exists b].
    unfold number_truthy in Ha, Hb.
    destruct Hzero as [Hz|Hz]; rewrite Hz in *; discriminate.
Qed.

Lemma X15_marker_needs_truthy_coordinates_witness :
  marker_child (Some (mkPosition 6.5%float 2.25%float)) "S" =
    ChildMarker (mkPosition 6.5%float 2.25%float) "S"
  /\ exists x,
      marker_child (Some (mkPosition 0%float 2.25%float)) "S" = ChildNumber x
      /\ number_truthy x = false.
Proof.
  split.
  - apply (proj1 (proj2 (X15_marker_needs_truthy_coordinates
                           (Some (mkPosition 6.5%float 2.25%float)) "S")));
      reflexivity.
  - apply (proj2 (proj2 (X15_marker_needs_truthy_coordinates
                           (Some (mkPosition 0%float 2.25%float)) "S"))
             (mkPosition 0%float 2.25%float)).
    + reflexivity.
    + left. reflexivity.
Defined.

(** ** The listener on the socket *)





(** ** Exactness of the comparison *)

Lemma SFcompare_Eq_inv (f1 f2 : spec_float) :
  SFcompare f1 f2 = Some Eq ->
  f1 = f2 \/ (exists s1 s2, f1 = S754_zero s1 /\ f2 = S754_zero s2).
Proof.
  destruct f1 as [s1|s1| |s1 m1 e1], f2 as [s2|s2| |s2 m2 e2]; simpl;
    try discriminate;
    try (destruct s1; discriminate); try (destruct s2; discriminate).
  - intros _. right. now exists s1, s2.
  - destruct s1, s2; (discriminate || (intros _; now left)).
  - destruct s1, s2; try discriminate;
      destruct (Z.compare_spec e1 e2) as [He|He|He]; try discriminate;
      destruct (Pos.compare_cont Eq m1 m2) eqn:Hm; try discriminate;
      intros _; change (Pos.compare m1 m2 = Eq) in Hm;
      apply Pos.compare_eq in Hm; subst; now left.
Qed.

Lemma SFeqb_self (f : spec_float) : SFeqb f f = false -> f = S754_nan.
Proof.
  unfold SFeqb. destruct f as [s|s| |s m e]; simpl; try discriminate.
  - destruct s; discriminate.
  - reflexivity.
  - destruct s; rewrite Z.compare_refl, Pos.compare_cont_refl; discriminate.
Qed.

Lemma number_eq_nan (x y : JS.number) :
  PrimFloat.is_nan x = true ->
  JS.number_eq x y = false /\ JS.number_eq y x = false.
Proof.
  unfold PrimFloat.is_nan, JS.number_eq. rewrite negb_true_iff, !eqb_spec.
  intros H. apply SFeqb_self in H. rewrite H. unfold SFeqb. simpl.
  split; [reflexivity|]. now destruct (Prim2SF y).
Qed.

Lemma number_eq_exact (x y : JS.number) :
  JS.number_eq x y = true ->
  x = y \/ (JS.number_eq x 0%float = true /\ JS.number_eq y 0%float = true).
Proof.
  unfold JS.number_eq. rewrite !eqb_spec. unfold SFeqb.
  destruct (SFcompare (Prim2SF x) (Prim2SF y)) as [[| |]|] eqn:H;
    try discriminate.
  intros _. apply SFcompare_Eq_inv in H as [H|(s1 & s2 & H1 & H2)].
  - left. rewrite <- (SF2Prim_Prim2SF x), <- (SF2Prim_Prim2SF y). now f_equal.
  - right. rewrite H1, H2. now destruct s1, s2.
Qed.

(** X17.  The comparison has no tolerance: two present coordinates the
    detector finds not different are identical field by field, except that a
    positive and a negative zero pass for the same; so with no zero field the
    two coordinates are the same value. *)
Theorem X17_not_different_means_identical (p q : Position) :
  areLocationDifferent (Some p) (Some q) = false ->
  (lat p = lat q
   \/ (JS.number_eq (lat p) 0%float = true /\ JS.number_eq (lat q) 0%float = true))
  /\ (lng p = lng q
      \/ (JS.number_eq (lng p) 0%float = true /\ JS.number_eq (lng q) 0%float = true))
  /\ (JS.number_eq (lat p) 0%float = false ->
      JS.number_eq (lng p) 0%float = false -> p = q).
Proof.
  rewrite areLocationDifferent_false. simpl. intros [Hlat Hlng].
  apply number_eq_exact in Hlat, Hlng.
  split; [assumption|]. split; [assumption|].
  intros Hzlat Hzlng.
  destruct Hlat as [Hlat|[Hlat _]]; [|congruence].
  destruct Hlng as [Hlng|[Hlng _]]; [|congruence].
  destruct p, q; simpl in *. now subst.
Qed.

Lemma X17_not_different_means_identical_witness :
  mkPosition 6.5%float 2.25%float = mkPosition 6.5%float 2.25%float.
Proof.
  apply (proj2 (proj2 (X17_not_different_means_identical
                         (mkPosition 6.5%float 2.25%float)
                         (mkPosition 6.5%float 2.25%float) eq_refl)));
    reflexivity.
Defined.

(** X18.  A coordinate with a NaN field differs from every coordinate,
    present or absent, itself included.  A sample with a NaN field therefore
    always sets LocalPosition, and always emits when a stored location is
    present: for such samples nothing is ever suppressed. *)
Theorem X18_nan_sample_always_differs (s : Position) :
  no_nan s = false ->
  (forall a, areLocationDifferent a (Some s) = true
             /\ areLocationDifferent (Some s) a = true)
  /\ (forall r,
         handleBrowserFetchCurrentLocation r s =
         SetCurrentPosition s ::
         match delivery_location (deliveryContext r) with
         | Some _ =>
             [Emit LocationChanged (locationChangedPayload (deliveryContext r) s)]
         | None => []
         end).
Proof.
  intros Hnan.
  assert (Hall : forall a, areLocationDifferent a (Some s) = true
                           /\ areLocationDifferent (Some s) a = true).
  { intros a. rewrite (areLocationDifferent_sym (Some s) a).
    assert (H : areLocationDifferent a (Some s) = true); [|now split].
    destruct a as [a|]; [|reflexivity].
    unfold areLocationDifferent, JS.strict_neq_num. simpl.
    unfold no_nan in Hnan. apply andb_false_iff in Hnan.
    destruct Hnan as [H|H]; apply negb_false_iff in H.
    - now rewrite (proj2 (number_eq_nan (lat s) (lat a) H)).
    - rewrite (proj2 (number_eq_nan (lng s) (lng a) H)).
      apply orb_true_r. }
  split; [assumption|].
  intros r. unfold handleBrowserFetchCurrentLocation, location_guard.
  rewrite (proj2 (Hall (currentPosition r))). simpl.
  destruct (delivery_location (deliveryContext r)) as [stored|]; [|reflexivity].
  now rewrite (proj1 (Hall (Some stored))).
Qed.

Lemma X18_nan_sample_always_differs_witness :
  areLocationDifferent None (Some (mkPosition nan 0%float)) = true
  /\ areLocationDifferent (Some (mkPosition nan 0%float)) None = true.
Proof.
  apply (proj1 (X18_nan_sample_always_differs (mkPosition nan 0%float) eq_refl)).
Defined.

(** ** How many messages a session sends *)



